(** * A shallow embedding of the retrieval-augmented chat backend

    Sources embedded: [app.py] (the [chat] and [update_feedback] routes and
    [save_message_to_cosmos]), [utils/cosmos_connection.py] (the history
    fetch) and [utils/llm_invoke.py] (search, prompt assembly and the
    generation call with retry).

    The Cosmos container, the search index and the hosted model are external
    collaborators.  They are modelled as a [world] (the stored documents and a
    log of the calls issued so far) and an [env] of oracles that decide, call
    by call, what the collaborator answers or which exception it raises. *)

From Stdlib Require Import String Ascii Bool Arith ZArith QArith Qround Lia Lqa.
From Stdlib Require Import DecimalString List Permutation Sorted.
Import ListNotations.

Local Close Scope Q_scope.
Local Open Scope string_scope.
Local Open Scope list_scope.

(** ** Exceptions and results *)

Inductive exn : Type :=
| KeyError (key : string)        (* d[key] on a dict without that key *)
| IndexError                     (* l[0] on an empty list *)
| TypeError (msg : string)       (* None[key] *)
| ServiceError (msg : string).   (* anything raised by a remote collaborator *)

(** [str(e)] as used by the [chat] route for its error body. *)
Definition str_exn (e : exn) : string :=
  match e with
  | KeyError key => ("'" ++ key ++ "'")%string
  | IndexError => "list index out of range"
  | TypeError msg => msg
  | ServiceError msg => msg
  end.

Inductive result (A : Type) : Type :=
| Ok (a : A)
| Raise (e : exn).
Arguments Ok {A} a.
Arguments Raise {A} e.

Definition is_raise {A : Type} (r : result A) : bool :=
  match r with Ok _ => false | Raise _ => true end.

(** ** Python's [sorted]: a stable sort

    [sorted_by before l] keeps [x] in front of a later [y] whenever
    [before x y] holds, which is what [sorted(l, key=k)] does with
    [before x y := k x <= k y] and [sorted(l, key=k, reverse=True)] with
    [before x y := k y <= k x] (equal keys keep their original order in
    both). *)

Section Sorted.
Context {A : Type} (before : A -> A -> bool).

Fixpoint insert_by (x : A) (l : list A) : list A :=
  match l with
  | [] => [x]
  | y :: l' => if before x y then x :: y :: l' else y :: insert_by x l'
  end.

Fixpoint sorted_by (l : list A) : list A :=
  match l with
  | [] => []
  | x :: l' => insert_by x (sorted_by l')
  end.
End Sorted.

(** ** Scores

    Scores are JSON numbers.  Every finite binary64 value is a rational, so a
    score is modelled as a [Q] and compared exactly; NaN is outside the
    model.  [round(x, 4)] rounds the exact value half-to-even at the fourth
    decimal digit and returns the binary64 nearest to that decimal; [round4]
    is the decimal itself.  The last step is monotone, so the order of
    rounded scores and their number of digits are those of the program;
    distances to the unrounded score are not. *)

Definition round_half_even (x : Q) : Z :=
  let f := Qfloor x in
  let r := (x - inject_Z f)%Q in
  match (r ?= 1 # 2)%Q with
  | Lt => f
  | Gt => (f + 1)%Z
  | Eq => if Z.even f then f else (f + 1)%Z
  end.

Definition round4 (x : Q) : Q := (round_half_even (x * 10000) # 10000)%Q.

(** ** Data model *)

(** One attribution of the generation result ([top_chunks] entries). *)
Record attribution : Type := {
  a_content : string;
  a_search_score : Q;
  a_reranker_score : Q;
  a_source : string
}.

(** A conversation turn as written by [save_message_to_cosmos] of [app.py]. *)
Record item : Type := {
  it_id : string;
  it_session_id : string;
  it_user_id : string;
  it_user_roles : list string;
  it_role : string;
  it_content : string;
  it_timestamp : string;
  it_feedback : option string;
  it_top_chunks : list attribution
}.

(** A search hit; a field is [None] when the key is absent from the JSON
    object, which is what the [.get(key, default)] calls test. *)
Record chunk : Type := {
  c_content : option string;            (* "content" *)
  c_text : option string;               (* "text" *)
  c_search_score : option Q;            (* "@search.score" *)
  c_reranker_score : option Q;          (* "@search.rerankerScore" *)
  c_storage_path : option string        (* "metadata_storage_path" *)
}.

(** A row of [SELECT c.session_id, c.timestamp]. *)
Record session_row : Type := {
  sr_session_id : string;
  sr_timestamp : string
}.

(** A row of [SELECT c.id, c.role, c.content, c.timestamp]. *)
Record message_row : Type := {
  mr_id : string;
  mr_role : string;
  mr_content : string;
  mr_timestamp : string
}.

(** One element of the list returned by [get_last_messages_from_cosmos]:
    the dict [{"session_id": ..., "messages": ...}]. *)
Record session_dict : Type := {
  sd_session_id : string;
  sd_messages : list message_row
}.

(** The Python values a subscript of such a dict can yield. *)
Inductive pyval : Type :=
| PyStr (s : string)
| PyRows (rows : list message_row).

(** A chat message sent to the model: [{"role": ..., "content": ...}]. *)
Record message : Type := {
  m_role : pyval;
  m_content : pyval
}.

(** The model's reply: the [message.content] of each of its [choices]. *)
Record completion : Type := { choices : list string }.

(** ** The world *)

Inductive event : Type :=
| EvCreate (body : item)                       (* container.create_item *)
| EvQuerySessions (user_id : string)           (* container.query_items, session ids *)
| EvQueryMessages (user_id session_id : string)(* container.query_items, one session *)
| EvQueryById (id : string)                    (* container.query_items, by id *)
| EvReplace (key : string) (body : item)       (* container.replace_item *)
| EvSearch (query : string) (top : Z)          (* requests.post to the index *)
| EvSleep (delay : Z)                          (* asyncio.sleep *)
| EvLLM (messages : list message).             (* client.chat.completions.create *)

(** [trace] lists the calls issued so far, newest first. *)
Record world : Type := {
  docs : list item;
  trace : list event
}.

Definition log (ev : event) (w : world) : world :=
  {| docs := docs w; trace := ev :: trace w |}.

Definition is_store_call (ev : event) : bool :=
  match ev with
  | EvCreate _ | EvQuerySessions _ | EvQueryMessages _ _ | EvQueryById _
  | EvReplace _ _ => true
  | _ => false
  end.

Definition is_search_call (ev : event) : bool :=
  match ev with EvSearch _ _ => true | _ => false end.

Definition is_llm_call (ev : event) : bool :=
  match ev with EvLLM _ => true | _ => false end.

Definition calls (p : event -> bool) (w : world) : nat :=
  length (filter p (trace w)).

(** The calls issued so far in the order they happened. *)
Definition chrono (w : world) : list event := rev (trace w).

(** What the collaborators do.  Each oracle is asked with the number of
    calls of its kind issued before the present one, so that a collaborator
    may answer one call and fail the next.  [prompt_header] is the
    instruction text that [call_llm_async_with_retry] puts in front of every
    prompt, a literal of some thirty lines in the source; no property below
    depends on its wording, so it is carried here rather than spelled out. *)
Record env : Type := {
  cosmos_enabled : bool;                              (* module flag of cosmos_connection *)
  store_fault : nat -> option exn;                    (* the store call raises *)
  search_reply : nat -> string -> Z -> result (list chunk);
  llm_reply : nat -> list message -> result completion;
  uuid4 : nat -> string;                              (* str(uuid.uuid4()) *)
  utcnow : nat -> string;                             (* datetime.utcnow().isoformat() *)
  elapsed : nat -> Q;                                 (* round(end_time - start_time, 3) *)
  str_float : Q -> string;                            (* str() of a float *)
  prompt_header : string                              (* the fixed instruction text *)
}.

(** The clock and the identifier source are read at the current length of
    the log. *)
Definition tick (w : world) : nat := length (trace w).

(** ** A state and exception monad over the world *)

Definition M (A : Type) : Type := world -> result A * world.

Definition ret {A : Type} (a : A) : M A := fun w => (Ok a, w).

Definition raise {A : Type} (e : exn) : M A := fun w => (Raise e, w).

Definition bind {A B : Type} (c : M A) (k : A -> M B) : M B :=
  fun w =>
    match c w with
    | (Ok a, w') => k a w'
    | (Raise e, w') => (Raise e, w')
    end.

(** [try: c except Exception as e: h e] *)
Definition try_except {A : Type} (c : M A) (h : exn -> M A) : M A :=
  fun w =>
    match c w with
    | (Ok a, w') => (Ok a, w')
    | (Raise e, w') => h e w'
    end.

Declare Scope monad_scope.
Delimit Scope monad_scope with monad.
Notation "x <- c ;; k" := (bind c (fun x => k))
  (at level 61, c at next level, right associativity) : monad_scope.
Notation "c ;;; k" := (bind c (fun _ => k))
  (at level 61, right associativity) : monad_scope.
Local Open Scope monad_scope.

(** ** The Cosmos container *)

(** A call to the container is logged, and raises when the store says so. *)
Definition store_call (e : env) (ev : event) : M unit :=
  fun w =>
    match store_fault e (calls is_store_call w) with
    | Some x => (Raise x, log ev w)
    | None => (Ok tt, log ev w)
    end.

Definition get_docs : M (list item) := fun w => (Ok (docs w), w).

Definition put_docs (d : list item) : M unit :=
  fun w => (Ok tt, {| docs := d; trace := trace w |}).

(** [container.create_item(body=body)]: a new record is written. *)
Definition create_item (e : env) (body : item) : M unit :=
  store_call e (EvCreate body) ;;;
  d <- get_docs ;;
  put_docs (d ++ [body]).

(** [SELECT c.session_id, c.timestamp FROM c WHERE c.user_id = @user_id
     ORDER BY c.timestamp DESC] *)
Definition select_sessions (d : list item) (user_id : string) : list session_row :=
  map (fun c => {| sr_session_id := it_session_id c; sr_timestamp := it_timestamp c |})
      (sorted_by (fun x y => String.leb (it_timestamp y) (it_timestamp x))
                 (filter (fun c => String.eqb (it_user_id c) user_id) d)).

(** [SELECT c.id, c.role, c.content, c.timestamp FROM c
     WHERE c.user_id = @user_id AND c.session_id = @session_id
     ORDER BY c.timestamp DESC] *)
Definition select_messages (d : list item) (user_id session_id : string)
  : list message_row :=
  map (fun c => {| mr_id := it_id c; mr_role := it_role c;
                   mr_content := it_content c; mr_timestamp := it_timestamp c |})
      (sorted_by (fun x y => String.leb (it_timestamp y) (it_timestamp x))
                 (filter (fun c => String.eqb (it_user_id c) user_id
                                   && String.eqb (it_session_id c) session_id) d)).

(** [SELECT * FROM c WHERE c.id = @id] *)
Definition select_by_id (d : list item) (id : string) : list item :=
  filter (fun c => String.eqb (it_id c) id) d.

Definition query_sessions (e : env) (user_id : string) : M (list session_row) :=
  store_call e (EvQuerySessions user_id) ;;;
  d <- get_docs ;;
  ret (select_sessions d user_id).

Definition query_messages (e : env) (user_id session_id : string)
  : M (list message_row) :=
  store_call e (EvQueryMessages user_id session_id) ;;;
  d <- get_docs ;;
  ret (select_messages d user_id session_id).

Definition query_by_id (e : env) (id : string) : M (list item) :=
  store_call e (EvQueryById id) ;;;
  d <- get_docs ;;
  ret (select_by_id d id).

(** The first record whose id is [key] is replaced by [body]. *)
Fixpoint replace_first (key : string) (body : item) (d : list item)
  : option (list item) :=
  match d with
  | [] => None
  | c :: d' =>
      if String.eqb (it_id c) key then Some (body :: d')
      else option_map (cons c) (replace_first key body d')
  end.

(** [container.replace_item(item=key, body=body)]: raises when no record has
    that id. *)
Definition replace_item (e : env) (key : string) (body : item) : M unit :=
  store_call e (EvReplace key body) ;;;
  d <- get_docs ;;
  match replace_first key body d with
  | Some d' => put_docs d'
  | None => raise (ServiceError "NotFound")
  end.

(** ** utils/cosmos_connection.py: the history fetch *)

Definition mem (s : string) (l : list string) : bool :=
  existsb (String.eqb s) l.

(** The loop of [get_latest_session_ids] over the rows, with its two
    variables [seen] and [unique_sessions]; leaving the function is the
    [break] followed by the [return]. *)
Fixpoint unique_loop (limit : Z) (items : list session_row)
         (seen : list string) (unique_sessions : list string) : list string :=
  match items with
  | [] => unique_sessions
  | item :: rest =>
      let sid := sr_session_id item in
      let seen' := if mem sid seen then seen else sid :: seen in
      let unique' :=
        if mem sid seen then unique_sessions else unique_sessions ++ [sid] in
      if (Z.of_nat (length unique') >=? limit)%Z then unique'
      else unique_loop limit rest seen' unique'
  end.

(** [None] is Python's [None]; the function raises nothing. *)
Definition get_latest_session_ids (e : env) (user_id : string) (limit : Z)
           (w : world) : option (list string) * world :=
  if negb (cosmos_enabled e) then (None, w)
  else
    match query_sessions e user_id w with
    | (Ok items, w') => (Some (unique_loop limit items [] []), w')
    | (Raise _, w') => (None, w')
    end.

(** The loop of [get_last_messages_from_cosmos] over the session ids; a
    failing query skips its session ([continue]). *)
Fixpoint collect_sessions (e : env) (user_id : string) (session_ids : list string)
         (messages : list session_dict) (w : world) : list session_dict * world :=
  match session_ids with
  | [] => (messages, w)
  | session_id :: rest =>
      match query_messages e user_id session_id w with
      | (Ok items, w') =>
          let sorted_items :=
            sorted_by (fun x y => String.leb (mr_timestamp x) (mr_timestamp y)) items in
          collect_sessions e user_id rest
            (messages ++ [{| sd_session_id := session_id; sd_messages := sorted_items |}])
            w'
      | (Raise _, w') => collect_sessions e user_id rest messages w'
      end
  end.

Definition get_last_messages_from_cosmos (e : env) (user_id : string) (limit : Z)
           (w : world) : list session_dict * world :=
  if negb (cosmos_enabled e) then ([], w)
  else
    match get_latest_session_ids e user_id limit w with
    | (None, w') => ([], w')
    | (Some [], w') => ([], w')
    | (Some session_ids, w') => collect_sessions e user_id session_ids [] w'
    end.

(** What the loop is meant to compute, for comparison: the session ids in the order of their first occurrence, those of [seen]
    left out. *)
Fixpoint first_occurrences (seen : list string) (l : list string) : list string :=
  match l with
  | [] => []
  | s :: l' =>
      if mem s seen then first_occurrences seen l'
      else s :: first_occurrences (s :: seen) l'
  end.

(** ** utils/llm_invoke.py *)

(** [l[:k]] for a Python integer [k]. *)
Definition slice_to {A : Type} (k : Z) (l : list A) : list A :=
  if (0 <=? k)%Z then firstn (Z.to_nat k) l
  else firstn (length l - Z.to_nat (- k)) l.

(** [x.get("@search.rerankerScore", 0)] and [x.get("@search.score", 0)] *)
Definition reranker_of (x : chunk) : Q :=
  match c_reranker_score x with Some q => q | None => 0 end.

Definition score_of (x : chunk) : Q :=
  match c_search_score x with Some q => q | None => 0 end.

(** [chunk.get("content", chunk.get("text", ""))] *)
Definition content_of (x : chunk) : string :=
  match c_content x with
  | Some s => s
  | None => match c_text x with Some s => s | None => "" end
  end.

(** [chunk.get("metadata_storage_path", "")] *)
Definition path_of (x : chunk) : string :=
  match c_storage_path x with Some s => s | None => "" end.

(** The key comparison of [sorted(results, key=reranker, reverse=True)]. *)
Definition by_reranker_desc (x y : chunk) : bool :=
  Qle_bool (reranker_of y) (reranker_of x).

(** [requests.post] followed by [raise_for_status] and [.get("value", [])]:
    the index answers with its hits or the call raises. *)
Definition search_post (e : env) (query : string) (top : Z) : M (list chunk) :=
  fun w =>
    (search_reply e (calls is_search_call w) query top, log (EvSearch query top) w).

Definition query_azure_search (e : env) (query : string) (top_k : Z)
  : M (list chunk) :=
  results <- search_post e query top_k ;;
  let sorted_results := sorted_by by_reranker_desc results in
  ret (slice_to top_k sorted_results).

Definition nl : string := String (ascii_of_nat 10) EmptyString.

Definition digits (n : N) : string := NilZero.string_of_uint (N.to_uint n).

(** ["{:.4f}".format(x)] *)
Definition fmt4f (x : Q) : string :=
  let a := Z.to_N (Z.abs (round_half_even (x * 10000))) in
  ((match (x ?= 0)%Q with Lt => "-" | _ => "" end)
   ++ digits (a / 10000) ++ "." ++ substring 1 4 (digits (10000 + a mod 10000)))%string.

(** [s.lower()] on the ASCII letters. *)
Definition lower_ascii (c : ascii) : ascii :=
  let n := nat_of_ascii c in
  if (65 <=? n)%nat && (n <=? 90)%nat then ascii_of_nat (n + 32) else c.

Fixpoint lower (s : string) : string :=
  match s with
  | EmptyString => EmptyString
  | String c s' => String (lower_ascii c) (lower s')
  end.

(** [s.endswith(suffix)] *)
Definition endswith (s suffix : string) : bool :=
  let n := String.length s in
  let k := String.length suffix in
  (k <=? n)%nat && String.eqb (substring (n - k) k s) suffix.

Definition is_image_path (image_url : string) : bool :=
  existsb (endswith (lower image_url)) [".png"; ".jpg"; ".jpeg"; ".svg"].

(** [sep.join(l)] *)
Fixpoint join (sep : string) (l : list string) : string :=
  match l with
  | [] => ""
  | [x] => x
  | x :: l' => (x ++ sep ++ join sep l')%string
  end.

(** The body of the loop of [format_chunks_for_prompt], [i] from
    [enumerate]. *)
Definition format_chunk (i : nat) (x : chunk) : string :=
  let content := content_of x in
  let image_url := path_of x in
  let content :=
    if is_image_path image_url
    then (content ++ nl ++ "[Image reference: " ++ image_url ++ "]")%string
    else content in
  ("Source " ++ digits (N.of_nat (i + 1)) ++ " (score=" ++ fmt4f (score_of x)
   ++ ", reranker=" ++ fmt4f (reranker_of x) ++ "):" ++ nl ++ content)%string.

Fixpoint format_from (i : nat) (chunks : list chunk) : list string :=
  match chunks with
  | [] => []
  | x :: rest => format_chunk i x :: format_from (S i) rest
  end.

Definition format_chunks_for_prompt (chunks : list chunk) : string :=
  join (nl ++ nl)%string (format_from 0 chunks).

(** The dict returned on success. *)
Record llm_result : Type := {
  response : string;
  top_chunks : list attribution
}.

Definition to_attribution (x : chunk) : attribution :=
  {| a_content := content_of x;
     a_search_score := round4 (score_of x);
     a_reranker_score := round4 (reranker_of x);
     a_source := path_of x |}.

(** [msg[key]] for an element of the history list. *)
Definition session_dict_getitem (msg : session_dict) (key : string) : M pyval :=
  if String.eqb key "session_id" then ret (PyStr (sd_session_id msg))
  else if String.eqb key "messages" then ret (PyRows (sd_messages msg))
  else raise (KeyError key).

(** [for msg in cosmos_messages: chat_prompt.append(...)] *)
Fixpoint append_history (cosmos_messages : list session_dict)
         (chat_prompt : list message) : M (list message) :=
  match cosmos_messages with
  | [] => ret chat_prompt
  | msg :: rest =>
      r <- session_dict_getitem msg "role" ;;
      c <- session_dict_getitem msg "content" ;;
      append_history rest (chat_prompt ++ [{| m_role := r; m_content := c |}])
  end.

Definition sleep (delay : Z) : M unit :=
  fun w => (Ok tt, log (EvSleep delay) w).

(** [client.chat.completions.create(messages=chat_prompt, ...)] *)
Definition chat_completions_create (e : env) (chat_prompt : list message)
  : M completion :=
  fun w => (llm_reply e (calls is_llm_call w) chat_prompt, log (EvLLM chat_prompt) w).

(** [l[0]] *)
Definition first_of {A : Type} (l : list A) : M A :=
  match l with
  | [] => raise IndexError
  | x :: _ => ret x
  end.

(** The [try] block of one iteration. *)
Definition attempt_body (e : env) (delay : Z) (chat_prompt : list message)
           (top_chunks : list chunk) (attempt : nat) : M llm_result :=
  (if (0 <? attempt)%nat then sleep delay else ret tt) ;;;
  completion <- chat_completions_create e chat_prompt ;;
  response_content <- first_of (choices completion) ;;
  ret {| response := response_content;
         top_chunks := map to_attribution (slice_to 2 top_chunks) |}.

(** [for attempt in range(max_retries)] with its [except] clause, then the
    statements after the loop ([last_response] is never assigned, so only
    the [elif last_error] and the final [return None] remain). *)
Fixpoint retry_loop (e : env) (max_retries delay : Z) (chat_prompt : list message)
         (top_chunks : list chunk) (last_error : option exn)
         (attempts : list nat) : M (option llm_result) :=
  match attempts with
  | [] =>
      match last_error with
      | Some err => raise err
      | None => ret None
      end
  | attempt :: rest =>
      try_except
        (r <- attempt_body e delay chat_prompt top_chunks attempt ;; ret (Some r))
        (fun err =>
           if (Z.of_nat attempt >=? max_retries - 1)%Z then raise err
           else retry_loop e max_retries delay chat_prompt top_chunks (Some err) rest)
  end.

Definition call_llm_async_with_retry (e : env) (user_input session_id : string)
           (max_retries delay : Z) : M (option llm_result) :=
  fun w =>
    let (cosmos_messages, w1) := get_last_messages_from_cosmos e session_id 5 w in
    (top_chunks <- query_azure_search e (user_input ++ "?")%string 5 ;;
     let formatted_context := format_chunks_for_prompt top_chunks in
     let full_prompt :=
       (prompt_header e ++ formatted_context ++ nl ++ nl ++ "QUESTION: "
        ++ user_input ++ "?")%string in
     chat_prompt <- append_history cosmos_messages [] ;;
     let chat_prompt :=
       chat_prompt ++ [{| m_role := PyStr "user"; m_content := PyStr full_prompt |}] in
     retry_loop e max_retries delay chat_prompt top_chunks None
                (seq 0 (Z.to_nat max_retries))) w1.

(** [warm_up_search_index]: one generation call with [max_retries=1] and
    the default delay; [True] when it returns, [False] when it raises. *)
Definition warm_up_search_index (e : env) : world -> bool * world :=
  fun w =>
    match call_llm_async_with_retry e "What is this document about?"
                                    "warmup-session" 1 2 w with
    | (Ok warmup_response, w') => (true, w')
    | (Raise err, w') => (false, w')
    end.

(** ** app.py *)

Record ScoreOnly : Type := {
  search_score : Q;
  reranker_score : Q
}.

Record ChatRequest : Type := {
  message_of : string;            (* message *)
  session_id_of : string;         (* session_id *)
  user_id_of : string;            (* user_id *)
  user_roles_of : list string     (* user_roles *)
}.

Record ChatResponse : Type := {
  cr_response : string;
  cr_session_id : string;
  cr_elapsed_time : Q;
  cr_first_chunk : option ScoreOnly;
  cr_second_chunk : option ScoreOnly
}.

Record FeedbackRequest : Type := {
  fr_id : string;                 (* id *)
  fr_feedback : string;           (* feedback *)
  fr_sessionId : string           (* sessionId *)
}.

(** What a route hands back to the transport layer. *)
Inductive http_response : Type :=
| ChatOk (body : ChatResponse)
| FeedbackOk (messageId feedback : string)
| JSONResponse (error : string) (status_code : Z).

Definition now (e : env) : M string := fun w => (Ok (utcnow e (tick w)), w).

Definition new_uuid (e : env) : M string := fun w => (Ok (uuid4 e (tick w)), w).

Definition time_elapsed (e : env) : M Q := fun w => (Ok (elapsed e (tick w)), w).

(** Python's [x or default] on an optional list and an optional string. *)
Definition list_or {A : Type} (x : option (list A)) (default : list A) : list A :=
  match x with
  | Some (y :: l) => y :: l
  | _ => default
  end.

Definition string_or (x : option string) (default : string) : string :=
  match x with
  | Some (String c s) => String c s
  | _ => default
  end.

Definition save_message_to_cosmos (e : env) (session_id user_id role content : string)
           (user_roles : option (list string)) (feedback : option string)
           (timestamp : option string) (top_chunks : option (list attribution))
  : M unit :=
  id <- new_uuid e ;;
  stamp <- now e ;;
  let message :=
    {| it_id := id;
       it_session_id := session_id;
       it_user_id := user_id;
       it_user_roles := list_or user_roles [];
       it_role := role;
       it_content := content;
       it_timestamp := string_or timestamp stamp;
       it_feedback := feedback;
       it_top_chunks := list_or top_chunks [] |} in
  create_item e message.

(** A route body runs inside [try: ... except Exception as e: return ...]. *)
Definition route (c : M http_response) (on_error : exn -> http_response)
  : world -> http_response * world :=
  fun w =>
    match c w with
    | (Ok r, w') => (r, w')
    | (Raise x, w') => (on_error x, w')
    end.

Definition score_only (a : attribution) : ScoreOnly :=
  {| search_score := a_search_score a; reranker_score := a_reranker_score a |}.

Definition chat (e : env) (request : ChatRequest) : world -> http_response * world :=
  route
    (user_timestamp <- now e ;;
     save_message_to_cosmos e (session_id_of request) (user_id_of request) "user"
       (message_of request) (Some (user_roles_of request)) None
       (Some user_timestamp) None ;;;
     response_data <-
       call_llm_async_with_retry e (message_of request) (session_id_of request) 3 2 ;;
     match response_data with
     | None => raise (TypeError "'NoneType' object is not subscriptable")
     | Some response_data =>
         let response_text := response response_data in
         let top_chunks := top_chunks response_data in
         elapsed_seconds <- time_elapsed e ;;
         assistant_timestamp <- now e ;;
         save_message_to_cosmos e (session_id_of request) (user_id_of request)
           "assistant"
           (response_text ++ nl ++ nl ++ "_⏱️ Response time: "
            ++ str_float e elapsed_seconds ++ " seconds_")%string
           (Some (user_roles_of request)) None (Some assistant_timestamp)
           (Some top_chunks) ;;;
         ret (ChatOk {| cr_response := response_text;
                        cr_session_id := session_id_of request;
                        cr_elapsed_time := elapsed_seconds;
                        cr_first_chunk := option_map score_only (nth_error top_chunks 0);
                        cr_second_chunk := option_map score_only (nth_error top_chunks 1) |})
     end)
    (fun x => JSONResponse (str_exn x) 500).

Definition valid_feedback (feedback : string) : bool :=
  mem feedback ["positive"; "negative"].

Definition is_empty (s : string) : bool :=
  match s with EmptyString => true | _ => false end.

(** [item['feedback'] = feedback] *)
Definition with_feedback (c : item) (feedback : string) : item :=
  {| it_id := it_id c;
     it_session_id := it_session_id c;
     it_user_id := it_user_id c;
     it_user_roles := it_user_roles c;
     it_role := it_role c;
     it_content := it_content c;
     it_timestamp := it_timestamp c;
     it_feedback := Some feedback;
     it_top_chunks := it_top_chunks c |}.

Definition update_feedback (e : env) (feedback_request : FeedbackRequest)
  : world -> http_response * world :=
  route
    (let message_id := fr_id feedback_request in
     let feedback := fr_feedback feedback_request in
     let session_id := fr_sessionId feedback_request in
     if is_empty message_id || negb (valid_feedback feedback) || is_empty session_id
     then ret (JSONResponse "Invalid input" 400)
     else
       items <- query_by_id e message_id ;;
       match items with
       | [] => ret (JSONResponse "Message not found in database" 404)
       | item :: _ =>
           let item := with_feedback item feedback in
           replace_item e message_id item ;;;
           ret (FeedbackOk message_id feedback)
       end)
    (fun _ => JSONResponse "Failed to update feedback" 500).

(** ** Concrete collaborators used to run the model *)

(** A store that never fails, a model that always answers ["ok"], an index
    without hits. *)
Definition quiet_env : env :=
  {| cosmos_enabled := true;
     store_fault := fun _ => None;
     search_reply := fun _ _ _ => Ok [];
     llm_reply := fun _ _ => Ok {| choices := ["ok"] |};
     uuid4 := fun n => ("id" ++ digits (N.of_nat n))%string;
     utcnow := fun n => ("t" ++ digits (N.of_nat n))%string;
     elapsed := fun _ => 0%Q;
     str_float := fun _ => "0.0";
     prompt_header := "HEADER" |}.

(** The same with the history store switched off. *)
Definition disabled_env : env :=
  {| cosmos_enabled := false;
     store_fault := store_fault quiet_env;
     search_reply := search_reply quiet_env;
     llm_reply := llm_reply quiet_env;
     uuid4 := uuid4 quiet_env;
     utcnow := utcnow quiet_env;
     elapsed := elapsed quiet_env;
     str_float := str_float quiet_env;
     prompt_header := prompt_header quiet_env |}.

(** The same with a store that raises on every call. *)
Definition down_env : env :=
  {| cosmos_enabled := true;
     store_fault := fun _ => Some (ServiceError "store unreachable");
     search_reply := search_reply quiet_env;
     llm_reply := llm_reply quiet_env;
     uuid4 := uuid4 quiet_env;
     utcnow := utcnow quiet_env;
     elapsed := elapsed quiet_env;
     str_float := str_float quiet_env;
     prompt_header := prompt_header quiet_env |}.

(** The same with a model that raises on every call. *)
Definition failing_llm_env : env :=
  {| cosmos_enabled := true;
     store_fault := store_fault quiet_env;
     search_reply := search_reply quiet_env;
     llm_reply := fun n _ => Raise (ServiceError ("rate limit " ++ digits (N.of_nat n)));
     uuid4 := uuid4 quiet_env;
     utcnow := utcnow quiet_env;
     elapsed := elapsed quiet_env;
     str_float := str_float quiet_env;
     prompt_header := prompt_header quiet_env |}.

(** Three hits with reranker scores 0.5, 0.9 and 0.2. *)
Definition hit (content : string) (score reranker : Q) : chunk :=
  {| c_content := Some content; c_text := None; c_search_score := Some score;
     c_reranker_score := Some reranker; c_storage_path := None |}.

Definition sample_hits : list chunk :=
  [hit "a" (12345678 # 1000000000) (5 # 10);
   hit "b" (3 # 100) (9 # 10);
   hit "c" (1 # 3) (2 # 10)].

(** The quiet collaborators with an index that answers [sample_hits]. *)
Definition search_env : env :=
  {| cosmos_enabled := true;
     store_fault := store_fault quiet_env;
     search_reply := fun _ _ _ => Ok sample_hits;
     llm_reply := llm_reply quiet_env;
     uuid4 := uuid4 quiet_env;
     utcnow := utcnow quiet_env;
     elapsed := elapsed quiet_env;
     str_float := str_float quiet_env;
     prompt_header := prompt_header quiet_env |}.

Definition empty_world : world := {| docs := []; trace := [] |}.

Definition turn (id session_id user_id role content timestamp : string) : item :=
  {| it_id := id; it_session_id := session_id; it_user_id := user_id;
     it_user_roles := []; it_role := role; it_content := content;
     it_timestamp := timestamp; it_feedback := None; it_top_chunks := [] |}.

(** One user with two turns in session ["s1"] and one in ["s2"]. *)
Definition sample_world : world :=
  {| docs := [turn "m1" "s1" "u" "user" "hello" "2024-01-01T10:00:00";
              turn "m2" "s1" "u" "assistant" "hi" "2024-01-01T10:00:05";
              turn "m3" "s2" "u" "user" "again" "2024-01-02T09:00:00"];
     trace := [] |}.

(** ** Vocabulary of the statements *)

(** What one attempt comes to when the model is called for the [n]-th time:
    the content of the first choice, or the exception of the call or of
    [choices[0]]. *)
Definition attempt_outcome (e : env) (n : nat) (chat_prompt : list message)
  : result string :=
  match llm_reply e n chat_prompt with
  | Ok completion =>
      match choices completion with
      | [] => Raise IndexError
      | response_content :: _ => Ok response_content
      end
  | Raise err => Raise err
  end.

(** What the loop returns when an attempt got the text [x] from the model,
    [hits] being the search hits the call was made with. *)
Definition answer (hits : list chunk) (x : string) : option llm_result :=
  Some {| response := x;
          top_chunks := map to_attribution (slice_to 2 hits) |}.

(** [k] retries in the order they happen: each is one sleep followed by one
    call of the model. *)
Fixpoint retries (delay : Z) (chat_prompt : list message) (k : nat) : list event :=
  match k with
  | O => []
  | S k' => EvSleep delay :: EvLLM chat_prompt :: retries delay chat_prompt k'
  end.

(** The events of attempt number [attempt]. *)
Definition attempt_events (delay : Z) (chat_prompt : list message) (attempt : nat)
  : list event :=
  (if (0 <? attempt)%nat then [EvSleep delay] else []) ++ [EvLLM chat_prompt].

(** The model fails on its first two calls and answers the third. *)
Definition flaky_env : env :=
  {| cosmos_enabled := true;
     store_fault := store_fault quiet_env;
     search_reply := fun _ _ _ => Ok sample_hits;
     llm_reply := fun n _ =>
                    if (n <? 2)%nat then Raise (ServiceError "timeout")
                    else Ok {| choices := ["answer"] |};
     uuid4 := uuid4 quiet_env;
     utcnow := utcnow quiet_env;
     elapsed := elapsed quiet_env;
     str_float := str_float quiet_env;
     prompt_header := prompt_header quiet_env |}.

(** The record that [chat] writes for the user's message when it starts
    in world [w], and the world once the store has accepted it. *)
Definition user_turn (e : env) (request : ChatRequest) (w : world) : item :=
  {| it_id := uuid4 e (tick w);
     it_session_id := session_id_of request;
     it_user_id := user_id_of request;
     it_user_roles := user_roles_of request;
     it_role := "user";
     it_content := message_of request;
     it_timestamp := utcnow e (tick w);
     it_feedback := None;
     it_top_chunks := [] |}.

Definition after_user_turn (e : env) (request : ChatRequest) (w : world) : world :=
  {| docs := docs w ++ [user_turn e request w];
     trace := EvCreate (user_turn e request w) :: trace w |}.

(** The generation call as [chat] issues it. *)
Definition generation (e : env) (request : ChatRequest) : M (option llm_result) :=
  call_llm_async_with_retry e (message_of request) (session_id_of request) 3 2.

(** The record that [chat] writes for the answer [r] when the generation
    call has left the world [w]. *)
Definition assistant_turn (e : env) (request : ChatRequest) (r : llm_result)
           (w : world) : item :=
  {| it_id := uuid4 e (tick w);
     it_session_id := session_id_of request;
     it_user_id := user_id_of request;
     it_user_roles := user_roles_of request;
     it_role := "assistant";
     it_content :=
       (response r ++ nl ++ nl ++ "_⏱️ Response time: "
        ++ str_float e (elapsed e (tick w)) ++ " seconds_")%string;
     it_timestamp := utcnow e (tick w);
     it_feedback := None;
     it_top_chunks := top_chunks r |}.

Definition chat_response (e : env) (request : ChatRequest) (r : llm_result)
           (w : world) : http_response :=
  ChatOk {| cr_response := response r;
            cr_session_id := session_id_of request;
            cr_elapsed_time := elapsed e (tick w);
            cr_first_chunk := option_map score_only (nth_error (top_chunks r) 0);
            cr_second_chunk := option_map score_only (nth_error (top_chunks r) 1) |}.

Definition is_write (ev : event) : bool :=
  match ev with
  | EvCreate _ | EvReplace _ _ => true
  | _ => false
  end.

(** A computation that leaves the stored documents alone and issues no
    write to the store. *)
Definition reads_only {X : Type} (f : world -> X * world) : Prop :=
  forall w,
    docs (snd (f w)) = docs w
    /\ exists evs, chrono (snd (f w)) = chrono w ++ evs
                   /\ Forall (fun ev => is_write ev = false) evs.

(** A chat request whose session id is also its user id. *)
Definition own_session_request : ChatRequest :=
  {| message_of := "hi"; session_id_of := "u1"; user_id_of := "u1";
     user_roles_of := [] |}.

Definition fresh_request : ChatRequest :=
  {| message_of := "What is the refund policy"; session_id_of := "s9";
     user_id_of := "u"; user_roles_of := [] |}.

(** The single prompt message that closes the message list. *)
Definition prompt_message (e : env) (user_input : string) (hits : list chunk)
  : message :=
  {| m_role := PyStr "user";
     m_content :=
       PyStr (prompt_header e ++ format_chunks_for_prompt hits ++ nl ++ nl
              ++ "QUESTION: " ++ user_input ++ "?")%string |}.


(** ** Further vocabulary *)

(** The session ids whose message query is answered, the first query being
    store call number [c]. *)
Fixpoint surviving (e : env) (c : nat) (session_ids : list string) : list string :=
  match session_ids with
  | [] => []
  | session_id :: rest =>
      match store_fault e c with
      | Some _ => surviving e (S c) rest
      | None => session_id :: surviving e (S c) rest
      end
  end.

(** The two queries of the history fetch. *)
Definition is_query (ev : event) : bool :=
  match ev with
  | EvQuerySessions _ | EvQueryMessages _ _ => true
  | _ => false
  end.

Definition is_sleep (ev : event) : bool :=
  match ev with EvSleep _ => true | _ => false end.

(** A computation that leaves the documents alone and issues only calls
    accepted by [P]. *)
Definition effects {X : Type} (P : event -> bool) (f : world -> X * world) : Prop :=
  forall w,
    docs (snd (f w)) = docs w
    /\ exists evs, chrono (snd (f w)) = chrono w ++ evs /\ forallb P evs = true.

(** A turn with its feedback field blanked. *)
Definition without_feedback (c : item) : item :=
  {| it_id := it_id c;
     it_session_id := it_session_id c;
     it_user_id := it_user_id c;
     it_user_roles := it_user_roles c;
     it_role := it_role c;
     it_content := it_content c;
     it_timestamp := it_timestamp c;
     it_feedback := None;
     it_top_chunks := it_top_chunks c |}.

(** The row that the message query returns for a turn. *)
Definition row_of (c : item) : message_row :=
  {| mr_id := it_id c; mr_role := it_role c;
     mr_content := it_content c; mr_timestamp := it_timestamp c |}.

(** * Properties *)

Ltac run_monad :=
  unfold query_sessions, query_messages, query_by_id, create_item, replace_item,
    store_call, get_docs, put_docs, bind, ret, raise, try_except in *;
  simpl in *.

(** ** The log *)

Lemma chrono_log (ev : event) (w : world) : chrono (log ev w) = chrono w ++ [ev].
Proof. reflexivity. Qed.

Lemma docs_log (ev : event) (w : world) : docs (log ev w) = docs w.
Proof. reflexivity. Qed.

Lemma calls_log (p : event -> bool) (ev : event) (w : world) :
  calls p (log ev w) = if p ev then S (calls p w) else calls p w.
Proof. unfold calls; simpl; now destruct (p ev). Qed.

(** ** History fetch *)

Lemma mem_In (s : string) (l : list string) : mem s l = true <-> In s l.
Proof.
  unfold mem; rewrite existsb_exists; split.
  - intros [x [Hx Heq]]; apply String.eqb_eq in Heq; now subst.
  - intros H; exists s; split; [assumption | apply String.eqb_refl].
Qed.

Lemma mem_not_In (s : string) (l : list string) : mem s l = false <-> ~ In s l.
Proof.
  rewrite <- mem_In; destruct (mem s l); split; intros; congruence.
Qed.

(** While the limit is not reached the loop keeps [unique_sessions] free of
    repetitions and stops as soon as it holds [limit] identifiers. *)
Lemma unique_loop_bounded (limit : Z) (items : list session_row) :
  forall seen unique_sessions,
    (forall s, In s seen <-> In s unique_sessions) ->
    NoDup unique_sessions ->
    (Z.of_nat (length unique_sessions) < limit)%Z ->
    NoDup (unique_loop limit items seen unique_sessions)
    /\ (Z.of_nat (length (unique_loop limit items seen unique_sessions)) <= limit)%Z.
Proof.
  induction items as [|item rest IH]; intros seen uniq Hsame Hnd Hlen; simpl.
  - split; [assumption | lia].
  - destruct (mem (sr_session_id item) seen) eqn:Hmem.
    + destruct (Z.geb_spec (Z.of_nat (length uniq)) limit); [lia|].
      now apply IH.
    + apply mem_not_In in Hmem.
      assert (Hnd' : NoDup (uniq ++ [sr_session_id item])).
      { apply NoDup_app; [assumption | constructor; [easy | constructor] | ].
        intros x Hx [Hy | []]; subst; apply Hmem, Hsame, Hx. }
      assert (Hl : length (uniq ++ [sr_session_id item]) = S (length uniq))
        by (rewrite length_app; simpl; lia).
      destruct (Z.geb_spec (Z.of_nat (length (uniq ++ [sr_session_id item]))) limit).
      * split; [assumption | lia].
      * apply IH; [ | assumption | lia].
        intros s; simpl; rewrite in_app_iff; simpl; rewrite Hsame; tauto.
Qed.

(** For a positive limit the loop computes: deduplicate, then keep the
    first [limit]. *)
Lemma unique_loop_dedup_then_limit (limit : Z) (items : list session_row) :
  forall seen unique_sessions,
    (Z.of_nat (length unique_sessions) < limit)%Z ->
    unique_loop limit items seen unique_sessions
    = unique_sessions
        ++ firstn (Z.to_nat limit - length unique_sessions)
                  (first_occurrences seen (map sr_session_id items)).
Proof.
  induction items as [|item rest IH]; intros seen uniq Hlen; simpl.
  - now rewrite firstn_nil, app_nil_r.
  - destruct (mem (sr_session_id item) seen) eqn:Hmem.
    + destruct (Z.geb_spec (Z.of_nat (length uniq)) limit); [lia|].
      now apply IH.
    + assert (Hl : length (uniq ++ [sr_session_id item]) = S (length uniq))
        by (rewrite length_app; simpl; lia).
      destruct (Z.to_nat limit - length uniq) as [|k] eqn:Hk; [lia|].
      simpl.
      destruct (Z.geb_spec (Z.of_nat (length (uniq ++ [sr_session_id item]))) limit).
      * assert (k = 0) by lia; subst k. now rewrite firstn_O.
      * rewrite IH by lia. rewrite Hl, <- app_assoc. simpl.
        do 3 f_equal. lia.
Qed.

Lemma collect_sessions_ids (e : env) (user_id : string) (session_ids : list string) :
  forall messages w,
    NoDup (map sd_session_id messages ++ session_ids) ->
    NoDup (map sd_session_id (fst (collect_sessions e user_id session_ids messages w)))
    /\ length (fst (collect_sessions e user_id session_ids messages w))
       <= length messages + length session_ids.
Proof.
  induction session_ids as [|sid rest IH]; intros messages w Hnd; simpl.
  - rewrite app_nil_r in Hnd. split; [assumption | lia].
  - destruct (query_messages e user_id sid w) as [[items | x] w'].
    + specialize (IH (messages ++ [{| sd_session_id := sid;
                                      sd_messages :=
                                        sorted_by (fun x y => String.leb (mr_timestamp x)
                                                                         (mr_timestamp y)) items |}]) w').
      rewrite map_app, <- app_assoc, length_app in IH. simpl in IH.
      destruct (IH Hnd) as [H1 H2]. split; [assumption | lia].
    + apply NoDup_remove_1 in Hnd.
      destruct (IH messages w' Hnd) as [H1 H2]. split; [assumption | lia].
Qed.

(** For a limit of at least one the fetch returns at most [limit] sessions
    and no session twice. *)
Lemma history_bounded_for_positive_limit (e : env) (user_id : string) (limit : Z)
      (w : world) :
  (1 <= limit)%Z ->
  NoDup (map sd_session_id (fst (get_last_messages_from_cosmos e user_id limit w)))
  /\ (Z.of_nat (length (fst (get_last_messages_from_cosmos e user_id limit w)))
      <= limit)%Z.
Proof.
  intros Hlim. unfold get_last_messages_from_cosmos, get_latest_session_ids.
  destruct (cosmos_enabled e); simpl; [ | split; [constructor | lia]].
  destruct (query_sessions e user_id w) as [[items | x] w'];
    [ | simpl; split; [constructor | lia]].
  destruct (unique_loop_bounded limit items [] []) as [Hnd Hlen];
    [tauto | constructor | simpl; lia | ].
  destruct (unique_loop limit items [] []) as [|sid sids] eqn:Hu;
    [simpl; split; [constructor | lia] | ].
  destruct (collect_sessions_ids e user_id (sid :: sids) [] w' Hnd) as [H1 H2].
  split; [assumption | ].
  remember (collect_sessions e user_id (sid :: sids) [] w') as run.
  cbn [length] in *. lia.
Qed.

(** C7: when the history store is disabled, or when the query for the
    session ids raises, the history fetch hands its caller the empty list.
    The fetch is a total function of the world: it has no exceptional
    outcome at all. *)
Theorem history_fetch_degrades_to_empty (e : env) (user_id : string) (limit : Z)
        (w : world) :
  cosmos_enabled e = false
  \/ is_raise (fst (query_sessions e user_id w)) = true ->
  fst (get_last_messages_from_cosmos e user_id limit w) = [].
Proof.
  intros H. unfold get_last_messages_from_cosmos, get_latest_session_ids.
  destruct (cosmos_enabled e); simpl; [ | reflexivity].
  destruct H as [H | H]; [discriminate | ].
  destruct (query_sessions e user_id w) as [[items | x] w']; simpl in *;
    [discriminate | reflexivity].
Qed.

Lemma history_fetch_degrades_to_empty_witness :
  (cosmos_enabled disabled_env = false
   /\ fst (get_last_messages_from_cosmos disabled_env "u" 5 sample_world) = [])
  /\ (is_raise (fst (query_sessions down_env "u" sample_world)) = true
      /\ fst (get_last_messages_from_cosmos down_env "u" 5 sample_world) = []).
Proof.
  split; (split; [reflexivity | ]).
  - apply (history_fetch_degrades_to_empty disabled_env "u" 5 sample_world).
    left; reflexivity.
  - apply (history_fetch_degrades_to_empty down_env "u" 5 sample_world).
    right; reflexivity.
Defined.

(** C8: with a session limit of 0 the history fetch still returns one
    session: the limit is tested after the identifier has been appended.
    (For every limit of at least one the bound and the absence of
    repetitions hold, see [history_bounded_for_positive_limit].) *)
Theorem history_limit_zero_returns_a_session :
  map sd_session_id (fst (get_last_messages_from_cosmos quiet_env "u" 0 sample_world))
  = ["s2"]
  /\ ~ (Z.of_nat (length (fst (get_last_messages_from_cosmos quiet_env "u" 0
                                                             sample_world))) <= 0)%Z.
Proof.
  split; [reflexivity | ].
  vm_compute. intros H; apply H; reflexivity.
Qed.

(** ** Feedback updates *)

Lemma is_empty_false (s : string) : is_empty s = false <-> s <> "".
Proof. destruct s; simpl; split; congruence. Qed.

Lemma select_by_id_none (d : list item) (id : string) :
  (forall c, In c d -> it_id c <> id) -> select_by_id d id = [].
Proof.
  intros H. unfold select_by_id. induction d as [|c d IH]; simpl; [reflexivity | ].
  destruct (String.eqb_spec (it_id c) id) as [Heq | _].
  - exfalso. apply (H c); [now left | assumption].
  - apply IH. intros c' Hc'. apply H. now right.
Qed.

(** Replacing the first record of id [key] by a record of the same id puts
    that record first among the records of that id, and replacing it again
    changes nothing. *)
Lemma replace_first_fixpoint (key : string) (body : item) (d d' : list item) :
  it_id body = key ->
  replace_first key body d = Some d' ->
  (exists rest, select_by_id d' key = body :: rest)
  /\ replace_first key body d' = Some d'.
Proof.
  intros Hid. revert d'. induction d as [|c d IH]; intros d' H; simpl in H;
    [discriminate | ].
  destruct (String.eqb (it_id c) key) eqn:Hc.
  - injection H as <-. unfold select_by_id. simpl.
    rewrite Hid, String.eqb_refl. split; [eauto | reflexivity].
  - destruct (replace_first key body d) as [d1 | ] eqn:Hr; simpl in H;
      [ | discriminate].
    injection H as <-. destruct (IH d1 eq_refl) as [[rest Hsel] Hrep].
    unfold select_by_id in *. simpl. rewrite Hc, Hrep. split; [eauto | reflexivity].
Qed.

Lemma replace_first_found (key : string) (body c : item) (d rest : list item) :
  select_by_id d key = c :: rest ->
  exists d', replace_first key body d = Some d'.
Proof.
  unfold select_by_id. induction d as [|c0 d IH]; simpl; [discriminate | ].
  destruct (String.eqb (it_id c0) key); [eauto | ].
  intros H. destruct (IH H) as [d' ->]. simpl. eauto.
Qed.

Lemma select_by_id_head (d : list item) (key : string) (c : item) (rest : list item) :
  select_by_id d key = c :: rest -> it_id c = key.
Proof.
  intros H. assert (Hin : In c (select_by_id d key)) by (rewrite H; now left).
  unfold select_by_id in Hin. apply filter_In in Hin.
  now apply String.eqb_eq.
Qed.

(** C6: a feedback value other than positive and negative is answered with
    the validation error (400) and the world, store and log of calls alike,
    is left as it was, so the store was not touched; a request that passes
    validation, for an identifier no stored turn carries, is answered by
    the store's empty query result with the not-found error (404), the
    store unchanged; and that answer differs from the validation error and
    from the store error (500). *)
Theorem update_feedback_validates_then_looks_up (e : env) (fr : FeedbackRequest)
        (w : world) :
  (valid_feedback (fr_feedback fr) = false ->
   update_feedback e fr w = (JSONResponse "Invalid input" 400, w))
  /\ (fr_id fr <> "" -> valid_feedback (fr_feedback fr) = true ->
      fr_sessionId fr <> "" ->
      (forall c, In c (docs w) -> it_id c <> fr_id fr) ->
      store_fault e (calls is_store_call w) = None ->
      fst (update_feedback e fr w) = JSONResponse "Message not found in database" 404
      /\ docs (snd (update_feedback e fr w)) = docs w
      /\ fst (update_feedback e fr w) <> JSONResponse "Invalid input" 400
      /\ fst (update_feedback e fr w) <> JSONResponse "Failed to update feedback" 500).
Proof.
  split.
  - intros Hbad. unfold update_feedback, route. rewrite Hbad. simpl.
    rewrite orb_true_r. reflexivity.
  - intros Hid Hok Hsid Hnone Hup.
    apply is_empty_false in Hid. apply is_empty_false in Hsid.
    unfold update_feedback, route. rewrite Hid, Hok, Hsid. simpl.
    run_monad. rewrite Hup. simpl.
    rewrite (select_by_id_none _ _ Hnone). simpl.
    repeat split; discriminate.
Qed.

Lemma update_feedback_validates_then_looks_up_witness :
  update_feedback quiet_env
    {| fr_id := "m2"; fr_feedback := "meh"; fr_sessionId := "s1" |} sample_world
  = (JSONResponse "Invalid input" 400, sample_world)
  /\ fst (update_feedback quiet_env
            {| fr_id := "xyz"; fr_feedback := "positive"; fr_sessionId := "s1" |}
            sample_world)
     = JSONResponse "Message not found in database" 404.
Proof.
  split.
  - apply (update_feedback_validates_then_looks_up quiet_env
             {| fr_id := "m2"; fr_feedback := "meh"; fr_sessionId := "s1" |}
             sample_world).
    reflexivity.
  - apply (update_feedback_validates_then_looks_up quiet_env
             {| fr_id := "xyz"; fr_feedback := "positive"; fr_sessionId := "s1" |}
             sample_world).
    + discriminate.
    + reflexivity.
    + discriminate.
    + simpl. intros c [<- | [<- | [<- | []]]]; discriminate.
    + reflexivity.
Defined.

Lemma select_by_id_some (d : list item) (key : string) (c : item) :
  In c d -> it_id c = key -> exists c0 rest, select_by_id d key = c0 :: rest.
Proof.
  intros Hin Hid.
  assert (H : In c (select_by_id d key)).
  { unfold select_by_id. apply filter_In. split; [assumption | ].
    now apply String.eqb_eq. }
  destruct (select_by_id d key) as [|c0 rest]; [destruct H | eauto].
Qed.

(** The route on a request that passes validation, one store call at a
    time. *)
Lemma update_feedback_valid (e : env) (fr : FeedbackRequest) (w : world) :
  fr_id fr <> "" -> valid_feedback (fr_feedback fr) = true -> fr_sessionId fr <> "" ->
  update_feedback e fr w =
  let failed := JSONResponse "Failed to update feedback" 500 in
  let w1 := log (EvQueryById (fr_id fr)) w in
  match store_fault e (calls is_store_call w) with
  | Some _ => (failed, w1)
  | None =>
      match select_by_id (docs w) (fr_id fr) with
      | [] => (JSONResponse "Message not found in database" 404, w1)
      | c :: _ =>
          let body := with_feedback c (fr_feedback fr) in
          let w2 := log (EvReplace (fr_id fr) body) w1 in
          match store_fault e (S (calls is_store_call w)) with
          | Some _ => (failed, w2)
          | None =>
              match replace_first (fr_id fr) body (docs w) with
              | Some d' =>
                  (FeedbackOk (fr_id fr) (fr_feedback fr),
                   {| docs := d'; trace := trace w2 |})
              | None => (failed, w2)
              end
          end
      end
  end.
Proof.
  intros Hid Hok Hsid.
  apply is_empty_false in Hid. apply is_empty_false in Hsid.
  unfold update_feedback, route. rewrite Hid, Hok, Hsid. simpl.
  run_monad.
  destruct (store_fault e (calls is_store_call w)); [reflexivity | ].
  rewrite docs_log.
  destruct (select_by_id (docs w) (fr_id fr)) as [|c rest]; [reflexivity | ].
  rewrite calls_log. simpl.
  destruct (store_fault e (S (calls is_store_call w))); [reflexivity | ].
  rewrite !docs_log.
  destruct (replace_first (fr_id fr) (with_feedback c (fr_feedback fr)) (docs w));
    reflexivity.
Qed.

(** C9: for a stored turn and a valid feedback value, with the store
    answering the first application, the first application succeeds and
    sets the feedback, and applying the same request once more leaves the
    store exactly as the first application left it. *)
Theorem update_feedback_idempotent (e : env) (fr : FeedbackRequest) (w : world)
        (c : item) :
  In c (docs w) -> it_id c = fr_id fr ->
  fr_id fr <> "" -> valid_feedback (fr_feedback fr) = true -> fr_sessionId fr <> "" ->
  store_fault e (calls is_store_call w) = None ->
  store_fault e (S (calls is_store_call w)) = None ->
  let once := update_feedback e fr w in
  let twice := update_feedback e fr (snd once) in
  fst once = FeedbackOk (fr_id fr) (fr_feedback fr)
  /\ (exists c', In c' (docs (snd once)) /\ it_id c' = fr_id fr
                 /\ it_feedback c' = Some (fr_feedback fr))
  /\ docs (snd twice) = docs (snd once).
Proof.
  intros Hin Hc Hid Hok Hsid Hq Hr once twice. subst once twice.
  rewrite (update_feedback_valid e fr w Hid Hok Hsid). cbv zeta.
  rewrite Hq, Hr.
  destruct (select_by_id_some _ _ _ Hin Hc) as [c0 [rest Hsel]]. rewrite Hsel.
  pose proof (select_by_id_head _ _ _ _ Hsel) as Hc0.
  destruct (replace_first_found (fr_id fr) (with_feedback c0 (fr_feedback fr))
              _ _ _ Hsel) as [d' Hd']. rewrite Hd'.
  destruct (replace_first_fixpoint (fr_id fr) (with_feedback c0 (fr_feedback fr))
              _ _ Hc0 Hd') as [[rest' Hsel'] Hfix].
  split; [reflexivity | split].
  - exists (with_feedback c0 (fr_feedback fr)). simpl. repeat split; [ | assumption].
    assert (H : In (with_feedback c0 (fr_feedback fr)) (select_by_id d' (fr_id fr)))
      by (rewrite Hsel'; now left).
    unfold select_by_id in H. now apply filter_In in H.
  - rewrite (update_feedback_valid e fr _ Hid Hok Hsid). cbv zeta. simpl.
    clear Hq Hr.
    match goal with
    | |- context [store_fault e ?n] => destruct (store_fault e n); [reflexivity | ]
    end.
    rewrite Hsel'.
    match goal with
    | |- context [store_fault e ?n] => destruct (store_fault e n); [reflexivity | ]
    end.
    change (with_feedback (with_feedback c0 (fr_feedback fr)) (fr_feedback fr))
      with (with_feedback c0 (fr_feedback fr)).
    rewrite Hfix. reflexivity.
Qed.

Lemma update_feedback_idempotent_witness :
  let fr := {| fr_id := "m2"; fr_feedback := "positive"; fr_sessionId := "s1" |} in
  docs (snd (update_feedback quiet_env fr (snd (update_feedback quiet_env fr sample_world))))
  = docs (snd (update_feedback quiet_env fr sample_world)).
Proof.
  intros fr.
  apply (update_feedback_idempotent quiet_env fr sample_world
           (turn "m2" "s1" "u" "assistant" "hi" "2024-01-01T10:00:05")).
  - simpl. right; left; reflexivity.
  - reflexivity.
  - discriminate.
  - reflexivity.
  - discriminate.
  - reflexivity.
  - reflexivity.
Defined.

(** C10: the session id of a feedback request is only tested for being
    non-empty: two requests that differ in nothing but their non-empty
    session ids get the same answer and leave the same world (store and log
    of store calls), the turn being looked up by its identifier alone. *)
Theorem update_feedback_ignores_session_id (e : env) (id feedback s1 s2 : string)
        (w : world) :
  s1 <> "" -> s2 <> "" ->
  update_feedback e {| fr_id := id; fr_feedback := feedback; fr_sessionId := s1 |} w
  = update_feedback e {| fr_id := id; fr_feedback := feedback; fr_sessionId := s2 |} w.
Proof.
  intros H1 H2. apply is_empty_false in H1. apply is_empty_false in H2.
  unfold update_feedback, route. simpl. rewrite H1, H2. reflexivity.
Qed.

Lemma update_feedback_ignores_session_id_witness :
  update_feedback quiet_env
    {| fr_id := "m2"; fr_feedback := "negative"; fr_sessionId := "s1" |} sample_world
  = update_feedback quiet_env
      {| fr_id := "m2"; fr_feedback := "negative"; fr_sessionId := "other" |}
      sample_world.
Proof.
  apply (update_feedback_ignores_session_id quiet_env "m2" "negative" "s1" "other"
           sample_world); discriminate.
Defined.

(** ** The stable sort *)

Section SortedFacts.
Context {A : Type} (before : A -> A -> bool).

Lemma insert_by_perm (x : A) (l : list A) : Permutation (insert_by before x l) (x :: l).
Proof.
  induction l as [|y l IH]; simpl; [reflexivity | ].
  destruct (before x y); [reflexivity | ].
  rewrite IH. apply perm_swap.
Qed.

Lemma sorted_by_perm (l : list A) : Permutation (sorted_by before l) l.
Proof.
  induction l as [|x l IH]; simpl; [reflexivity | ].
  rewrite insert_by_perm. now constructor.
Qed.

Lemma sorted_by_length (l : list A) : length (sorted_by before l) = length l.
Proof. apply Permutation_length, sorted_by_perm. Qed.

(** Stability: the elements selected by [p] keep their order, provided
    [x] may stay in front of every selected element. *)
Lemma insert_by_filter (p : A -> bool) (x : A) (l : list A) :
  (p x = true -> forall y, p y = true -> before x y = true) ->
  filter p (insert_by before x l) = filter p (x :: l).
Proof.
  intros H. induction l as [|y l IH]; [reflexivity | ].
  simpl insert_by. destruct (before x y) eqn:Hxy; [reflexivity | ].
  simpl in *. rewrite IH.
  destruct (p x) eqn:Hx; [ | reflexivity].
  destruct (p y) eqn:Hy; [ | reflexivity].
  rewrite (H eq_refl y Hy) in Hxy. discriminate.
Qed.

Lemma sorted_by_stable (p : A -> bool) (l : list A) :
  (forall x y, p x = true -> p y = true -> before x y = true) ->
  filter p (sorted_by before l) = filter p l.
Proof.
  intros H. induction l as [|x l IH]; [reflexivity | ].
  simpl sorted_by. rewrite insert_by_filter by (intros Hx y Hy; now apply H).
  simpl. now rewrite IH.
Qed.

Hypothesis before_total : forall x y, before x y = true \/ before y x = true.
Hypothesis before_trans :
  forall x y z, before x y = true -> before y z = true -> before x z = true.

Lemma insert_by_sorted (x : A) (l : list A) :
  StronglySorted (fun a b => before a b = true) l ->
  StronglySorted (fun a b => before a b = true) (insert_by before x l).
Proof.
  induction 1 as [|y l Hs IH Hall]; simpl.
  - constructor; constructor.
  - destruct (before x y) eqn:Hxy.
    + constructor; [now constructor | ].
      constructor; [assumption | ].
      eapply Forall_impl; [ | exact Hall]. intros z Hz. now apply before_trans with y.
    + constructor; [assumption | ].
      assert (Hyx : before y x = true)
        by (destruct (before_total x y); congruence).
      apply (Permutation_Forall (Permutation_sym (insert_by_perm x l))).
      now constructor.
Qed.

Lemma sorted_by_sorted (l : list A) :
  StronglySorted (fun a b => before a b = true) (sorted_by before l).
Proof.
  induction l as [|x l IH]; simpl; [constructor | now apply insert_by_sorted].
Qed.
End SortedFacts.



Lemma StronglySorted_map {A B : Type} (R : A -> A -> Prop) (S : B -> B -> Prop)
      (f : A -> B) (l : list A) :
  (forall x y, R x y -> S (f x) (f y)) ->
  StronglySorted R l -> StronglySorted S (map f l).
Proof.
  intros Hf. induction 1 as [|x l Hs IH Hall]; simpl; constructor; [assumption | ].
  rewrite Forall_forall in *. intros y Hy. apply in_map_iff in Hy.
  destruct Hy as [z [<- Hz]]. auto.
Qed.

Lemma by_reranker_desc_total (x y : chunk) :
  by_reranker_desc x y = true \/ by_reranker_desc y x = true.
Proof.
  unfold by_reranker_desc. rewrite !Qle_bool_iff.
  destruct (Qlt_le_dec (reranker_of x) (reranker_of y)) as [H | H];
    [right; now apply Qlt_le_weak | now left].
Qed.

Lemma by_reranker_desc_trans (x y z : chunk) :
  by_reranker_desc x y = true -> by_reranker_desc y z = true ->
  by_reranker_desc x z = true.
Proof.
  unfold by_reranker_desc. rewrite !Qle_bool_iff. intros H1 H2.
  now apply Qle_trans with (reranker_of y).
Qed.

Lemma slice_to_nonneg {A : Type} (k : Z) (l : list A) :
  (0 <= k)%Z -> slice_to k l = firstn (Z.to_nat k) l.
Proof. intros H. unfold slice_to. now destruct (Z.leb_spec 0 k); [ | lia]. Qed.

(** The hits come back in non-increasing order of reranker score, ties in
    the order of the index. *)
Lemma sorted_results_ordered (results : list chunk) :
  StronglySorted (fun x y => (reranker_of y <= reranker_of x)%Q)
                 (sorted_by by_reranker_desc results).
Proof.
  pose proof (sorted_by_sorted by_reranker_desc by_reranker_desc_total
                by_reranker_desc_trans results) as H.
  rewrite <- (map_id (sorted_by by_reranker_desc results)).
  eapply StronglySorted_map; [ | exact H].
  intros x y Hxy. now apply Qle_bool_iff.
Qed.

(** C4: when the index answers with [results] and [top_k] is a count (not
    negative), the retrieval client returns the first [top_k] entries of a
    rearrangement of [results] that is in non-increasing order of reranker
    score (a missing score counting as 0): it sorts first and truncates
    afterwards, so at most [top_k] entries are returned. *)
Theorem query_azure_search_sorts_then_truncates (e : env) (query : string)
        (top_k : Z) (w : world) (results : list chunk) :
  (0 <= top_k)%Z ->
  search_reply e (calls is_search_call w) query top_k = Ok results ->
  exists sorted_results,
    Permutation sorted_results results
    /\ StronglySorted (fun x y => (reranker_of y <= reranker_of x)%Q) sorted_results
    /\ fst (query_azure_search e query top_k w)
       = Ok (firstn (Z.to_nat top_k) sorted_results)
    /\ (Z.of_nat (length (firstn (Z.to_nat top_k) sorted_results)) <= top_k)%Z.
Proof.
  intros Hk Hreply. exists (sorted_by by_reranker_desc results).
  split; [apply sorted_by_perm | ].
  split; [apply sorted_results_ordered | ].
  split.
  - unfold query_azure_search, search_post, bind, ret. rewrite Hreply.
    now rewrite slice_to_nonneg.
  - rewrite length_firstn. lia.
Qed.

Lemma query_azure_search_sorts_then_truncates_witness :
  exists sorted_results,
    Permutation sorted_results sample_hits
    /\ StronglySorted (fun x y => (reranker_of y <= reranker_of x)%Q) sorted_results
    /\ fst (query_azure_search search_env "refund?" 2 empty_world)
       = Ok (firstn (Z.to_nat 2) sorted_results)
    /\ (Z.of_nat (length (firstn (Z.to_nat 2) sorted_results)) <= 2)%Z.
Proof.
  apply (query_azure_search_sorts_then_truncates search_env "refund?" 2 empty_world
           sample_hits); [lia | reflexivity].
Defined.

(** ** Rounding *)

Lemma round_half_even_bounds (x : Q) :
  (Qfloor x <= round_half_even x <= Qfloor x + 1)%Z.
Proof.
  unfold round_half_even.
  destruct (x - inject_Z (Qfloor x) ?= 1 # 2)%Q; [ | lia | lia].
  destruct (Z.even (Qfloor x)); lia.
Qed.

Lemma round_half_even_mono (x y : Q) :
  (x <= y)%Q -> (round_half_even x <= round_half_even y)%Z.
Proof.
  intros Hxy. pose proof (Qfloor_resp_le _ _ Hxy) as Hf.
  pose proof (round_half_even_bounds x) as Hx.
  pose proof (round_half_even_bounds y) as Hy.
  destruct (Z.eq_dec (Qfloor x) (Qfloor y)) as [Heq | Hne]; [ | lia].
  clear Hx Hy Hf. unfold round_half_even. rewrite Heq.
  set (F := inject_Z (Qfloor y)).
  destruct (Qcompare_spec (x - F) (1 # 2)) as [Hx | Hx | Hx];
    destruct (Qcompare_spec (y - F) (1 # 2)) as [Hy | Hy | Hy];
    try lia; try (exfalso; lra);
    destruct (Z.even (Qfloor y)); lia.
Qed.

Lemma round4_mono (x y : Q) : (x <= y)%Q -> (round4 x <= round4 y)%Q.
Proof.
  intros Hxy. unfold round4, Qle. simpl.
  apply Z.mul_le_mono_nonneg_r; [lia | ].
  apply round_half_even_mono. lra.
Qed.


Lemma round4_idempotent (x : Q) : round4 (round4 x) = round4 x.
Proof.
  unfold round4. set (z := round_half_even (x * 10000)). f_equal.
  assert (Hfl : Qfloor ((z # 10000) * 10000) = z).
  { unfold Qfloor, Qmult. simpl. apply Z.div_mul. lia. }
  unfold round_half_even. rewrite Hfl.
  assert (H : ((z # 10000) * 10000 - inject_Z z == 0)%Q).
  { unfold Qeq, Qminus, Qplus, Qmult, Qopp, inject_Z. simpl. lia. }
  destruct (Qcompare_spec ((z # 10000) * 10000 - inject_Z z) (1 # 2)) as [H1 | H1 | H1];
    [exfalso | reflexivity | exfalso]; rewrite H in H1;
    [discriminate H1 | now compute in H1].
Qed.

(** ** The retry loop *)

Section Retry.
Variables (e : env) (max_retries delay : Z) (chat_prompt : list message)
          (hits : list chunk).

(** One iteration of the loop. *)
Lemma retry_loop_step (last_error : option exn) (attempt : nat) (rest : list nat)
      (w : world) :
  retry_loop e max_retries delay chat_prompt hits last_error
             (attempt :: rest) w
  = let w1 :=
      log (EvLLM chat_prompt)
          (if (0 <? attempt)%nat then log (EvSleep delay) w else w) in
    match attempt_outcome e (calls is_llm_call w) chat_prompt with
    | Ok x => (Ok (answer hits x), w1)
    | Raise err =>
        if (Z.of_nat attempt >=? max_retries - 1)%Z then (Raise err, w1)
        else retry_loop e max_retries delay chat_prompt hits (Some err) rest w1
    end.
Proof.
  unfold attempt_outcome. simpl.
  unfold try_except, attempt_body, bind, ret, raise, sleep, chat_completions_create.
  destruct (0 <? attempt)%nat; rewrite ?calls_log; simpl;
    (destruct (llm_reply e (calls is_llm_call w) chat_prompt) as [[[|x l]] | err];
     simpl; try reflexivity;
     destruct (Z.of_nat attempt >=? max_retries - 1)%Z; reflexivity).
Qed.

Lemma chrono_attempt (attempt : nat) (w : world) :
  chrono (log (EvLLM chat_prompt)
              (if (0 <? attempt)%nat then log (EvSleep delay) w else w))
  = chrono w ++ attempt_events delay chat_prompt attempt.
Proof.
  unfold attempt_events. destruct (0 <? attempt)%nat;
    rewrite ?chrono_log, <- ?app_assoc; reflexivity.
Qed.

Lemma calls_attempt (attempt : nat) (w : world) :
  calls is_llm_call
        (log (EvLLM chat_prompt)
             (if (0 <? attempt)%nat then log (EvSleep delay) w else w))
  = S (calls is_llm_call w).
Proof. destruct (0 <? attempt)%nat; reflexivity. Qed.

(** The loop from attempt [a] on, with [n] attempts left. *)
Lemma retry_loop_from (n : nat) :
  forall (a : nat) (last_error : option exn) (w : world),
    Z.of_nat (a + n) = max_retries ->
    let run := retry_loop e max_retries delay chat_prompt hits last_error
                          (seq a n) w in
    (forall k x,
        k < n ->
        (forall j, j < k ->
                   is_raise (attempt_outcome e (calls is_llm_call w + j) chat_prompt)
                   = true) ->
        attempt_outcome e (calls is_llm_call w + k) chat_prompt = Ok x ->
        fst run = Ok (answer hits x)
        /\ chrono (snd run)
           = chrono w ++ attempt_events delay chat_prompt a
                      ++ retries delay chat_prompt k)
    /\ (forall x,
           1 <= n ->
           (forall j, j < n ->
                      is_raise (attempt_outcome e (calls is_llm_call w + j) chat_prompt)
                      = true) ->
           attempt_outcome e (calls is_llm_call w + (n - 1)) chat_prompt = Raise x ->
           fst run = Raise x
           /\ chrono (snd run)
              = chrono w ++ attempt_events delay chat_prompt a
                         ++ retries delay chat_prompt (n - 1)).
Proof.
  induction n as [|n IH]; intros a last_error w Hlen run.
  - split; intros; lia.
  - subst run. simpl seq. rewrite retry_loop_step. cbv zeta.
    set (w1 := log (EvLLM chat_prompt)
                   (if (0 <? a)%nat then log (EvSleep delay) w else w)).
    assert (Hc : calls is_llm_call w1 = S (calls is_llm_call w))
      by apply calls_attempt.
    assert (Hw1 : chrono w1 = chrono w ++ attempt_events delay chat_prompt a)
      by apply chrono_attempt.
    assert (Hnext : forall k, attempt_events delay chat_prompt a
                              ++ retries delay chat_prompt (S k)
                              = attempt_events delay chat_prompt a
                                ++ attempt_events delay chat_prompt (S a)
                                ++ retries delay chat_prompt k) by reflexivity.
    destruct (IH (S a) (match attempt_outcome e (calls is_llm_call w) chat_prompt with
                        | Ok _ => None | Raise err => Some err end) w1) as [IHa IHb];
      [lia | ].
    split.
    + intros k x Hk Hfail Hok. destruct k as [|k].
      * rewrite Nat.add_0_r in Hok. rewrite Hok. simpl fst. simpl snd.
        rewrite Hw1. simpl retries. now rewrite app_nil_r.
      * pose proof (Hfail 0 ltac:(lia)) as H0. rewrite Nat.add_0_r in H0.
        destruct (attempt_outcome e (calls is_llm_call w) chat_prompt) as [y | err];
          [discriminate | ].
        destruct (Z.geb_spec (Z.of_nat a) (max_retries - 1)); [lia | ].
        destruct (IHa k x) as [Hr Ht].
        -- lia.
        -- intros j Hj. rewrite Hc. specialize (Hfail (S j) ltac:(lia)).
           now rewrite Nat.add_succ_r in Hfail.
        -- rewrite Hc. now rewrite Nat.add_succ_r in Hok.
        -- split; [exact Hr | ]. rewrite Ht, Hw1, Hnext, <- !app_assoc. reflexivity.
    + intros x _ Hfail Hlast.
      pose proof (Hfail 0 ltac:(lia)) as H0. rewrite Nat.add_0_r in H0.
      destruct n as [|n].
      * simpl in Hlast. rewrite Nat.add_0_r in Hlast. rewrite Hlast.
        destruct (Z.geb_spec (Z.of_nat a) (max_retries - 1)); [ | lia].
        simpl fst. simpl snd. rewrite Hw1. simpl retries. now rewrite app_nil_r.
      * destruct (attempt_outcome e (calls is_llm_call w) chat_prompt) as [y | err];
          [discriminate | ].
        destruct (Z.geb_spec (Z.of_nat a) (max_retries - 1)); [lia | ].
        destruct (IHb x) as [Hr Ht].
        -- lia.
        -- intros j Hj. rewrite Hc. specialize (Hfail (S j) ltac:(lia)).
           now rewrite Nat.add_succ_r in Hfail.
        -- rewrite Hc. replace (S (calls is_llm_call w) + (S n - 1))
             with (calls is_llm_call w + (S (S n) - 1)) by lia. exact Hlast.
        -- split; [exact Hr | ].
           replace (S (S n) - 1) with (S (S n - 1)) by lia.
           rewrite Ht, Hw1, Hnext, <- !app_assoc. reflexivity.
Qed.
End Retry.

(** The loop alone, run over [range(N)] with [N >= 1]: the first call of
    the model is made without any sleep; [k] failures followed by an answer
    give [k] retries, each one sleep of [delay] followed by one call; [N]
    failures give [N - 1] retries and the exception of the last attempt. *)
Lemma retry_loop_trace (e : env) (N delay : Z)
        (chat_prompt : list message) (hits : list chunk) (w : world) :
  (1 <= N)%Z ->
  let c := calls is_llm_call w in
  let run := retry_loop e N delay chat_prompt hits None (seq 0 (Z.to_nat N)) w in
  (forall k x,
      (Z.of_nat k < N)%Z ->
      (forall j, j < k -> is_raise (attempt_outcome e (c + j) chat_prompt) = true) ->
      attempt_outcome e (c + k) chat_prompt = Ok x ->
      fst run = Ok (Some {| response := x;
                            top_chunks := map to_attribution (slice_to 2 hits) |})
      /\ chrono (snd run)
         = chrono w ++ EvLLM chat_prompt :: retries delay chat_prompt k)
  /\ (forall x,
         (forall j, (Z.of_nat j < N)%Z ->
                    is_raise (attempt_outcome e (c + j) chat_prompt) = true) ->
         attempt_outcome e (c + (Z.to_nat N - 1)) chat_prompt = Raise x ->
         fst run = Raise x
         /\ chrono (snd run)
            = chrono w ++ EvLLM chat_prompt
                       :: retries delay chat_prompt (Z.to_nat N - 1)).
Proof.
  intros HN c run.
  destruct (retry_loop_from e N delay chat_prompt hits (Z.to_nat N) 0 None w)
    as [Ha Hb]; [lia | ].
  split.
  - intros k x Hk Hfail Hok. apply Ha; [lia | assumption | assumption].
  - intros x Hfail Hlast. apply Hb; [lia | | assumption].
    intros j Hj. apply Hfail. lia.
Qed.

Lemma retry_loop_trace_example :
  let prompt := [{| m_role := PyStr "user"; m_content := PyStr "q" |}] in
  (fst (retry_loop failing_llm_env 3 2 prompt [] None (seq 0 (Z.to_nat 3)) empty_world)
   = Raise (ServiceError "rate limit 2")
   /\ chrono (snd (retry_loop failing_llm_env 3 2 prompt [] None (seq 0 (Z.to_nat 3))
                              empty_world))
      = chrono empty_world ++ EvLLM prompt :: retries 2 prompt (Z.to_nat 3 - 1))
  /\ (fst (retry_loop flaky_env 3 2 prompt [] None (seq 0 (Z.to_nat 3)) empty_world)
      = Ok (Some {| response := "answer";
                    top_chunks := map to_attribution (slice_to 2 []) |})
      /\ chrono (snd (retry_loop flaky_env 3 2 prompt [] None (seq 0 (Z.to_nat 3))
                                 empty_world))
         = chrono empty_world ++ EvLLM prompt :: retries 2 prompt 2).
Proof.
  intros prompt. split.
  - apply (retry_loop_trace failing_llm_env 3 2 prompt [] empty_world);
      [lia | intros j _; reflexivity | reflexivity].
  - apply (retry_loop_trace flaky_env 3 2 prompt [] empty_world)
      with (k := 2); [lia | lia | | reflexivity].
    intros [|[|j]] Hj; [reflexivity | reflexivity | lia].
Defined.

(** ** Computations that do not write *)

Lemma reads_only_ret {A : Type} (a : A) : reads_only (ret a).
Proof. intros w. split; [reflexivity | ]. exists []. now rewrite app_nil_r. Qed.

Lemma reads_only_raise {A : Type} (x : exn) : reads_only (@raise A x).
Proof. intros w. split; [reflexivity | ]. exists []. now rewrite app_nil_r. Qed.

Lemma reads_only_then {X Y : Type} (f : world -> X * world)
      (g : X -> world -> Y * world) :
  reads_only f -> (forall x, reads_only (g x)) ->
  reads_only (fun w => let (x, w') := f w in g x w').
Proof.
  intros Hf Hg w. destruct (Hf w) as [Hd [evs [Ht Hall]]].
  destruct (f w) as [x w']. simpl in *.
  destruct (Hg x w') as [Hd' [evs' [Ht' Hall']]].
  split; [congruence | ].
  exists (evs ++ evs'). split; [ | now apply Forall_app].
  now rewrite Ht', Ht, app_assoc.
Qed.

Lemma reads_only_bind {A B : Type} (c : M A) (k : A -> M B) :
  reads_only c -> (forall a, reads_only (k a)) -> reads_only (bind c k).
Proof.
  intros Hc Hk w. unfold bind. destruct (Hc w) as [Hd [evs [Ht Hall]]].
  destruct (c w) as [[a | x] w']; simpl in *; [ | eauto].
  destruct (Hk a w') as [Hd' [evs' [Ht' Hall']]].
  split; [congruence | ].
  exists (evs ++ evs'). split; [ | now apply Forall_app].
  now rewrite Ht', Ht, app_assoc.
Qed.

Lemma reads_only_log {A : Type} (ev : event) (f : world -> result A) :
  is_write ev = false -> reads_only (fun w => (f w, log ev w)).
Proof.
  intros Hev w. split; [reflexivity | ]. exists [ev]. split; [reflexivity | ].
  now constructor.
Qed.

Lemma reads_only_query_sessions (e : env) (user_id : string) :
  reads_only (query_sessions e user_id).
Proof.
  intros w. unfold query_sessions. run_monad.
  destruct (store_fault e (calls is_store_call w)); simpl;
    (split; [reflexivity | exists [EvQuerySessions user_id]; split;
                           [reflexivity | now constructor]]).
Qed.

Lemma reads_only_query_messages (e : env) (user_id session_id : string) :
  reads_only (query_messages e user_id session_id).
Proof.
  intros w. unfold query_messages. run_monad.
  destruct (store_fault e (calls is_store_call w)); simpl;
    (split; [reflexivity | exists [EvQueryMessages user_id session_id]; split;
                           [reflexivity | now constructor]]).
Qed.

Lemma reads_only_collect_sessions (e : env) (user_id : string)
      (session_ids : list string) :
  forall messages, reads_only (collect_sessions e user_id session_ids messages).
Proof.
  induction session_ids as [|sid rest IH]; intros messages.
  - apply (reads_only_ret messages).
  - intros w. simpl.
    destruct (reads_only_query_messages e user_id sid w) as [Hd [evs [Ht Hall]]].
    destruct (query_messages e user_id sid w) as [[items | x] w']; simpl in *;
      match goal with
      | |- context [collect_sessions e user_id rest ?m w'] =>
          destruct (IH m w') as [Hd' [evs' [Ht' Hall']]]
      end;
      (split; [congruence | ]; exists (evs ++ evs');
       split; [now rewrite Ht', Ht, app_assoc | now apply Forall_app]).
Qed.

Lemma reads_only_history (e : env) (user_id : string) (limit : Z) :
  reads_only (get_last_messages_from_cosmos e user_id limit).
Proof.
  unfold get_last_messages_from_cosmos, get_latest_session_ids.
  destruct (cosmos_enabled e); simpl; [ | apply (reads_only_ret (A := list session_dict) [])].
  intros w. destruct (reads_only_query_sessions e user_id w) as [Hd [evs [Ht Hall]]].
  destruct (query_sessions e user_id w) as [[items | x] w']; simpl in *;
    [ | split; [assumption | eauto]].
  destruct (unique_loop limit items [] []) as [|sid sids]; simpl;
    [split; [assumption | eauto] | ].
  destruct (reads_only_collect_sessions e user_id (sid :: sids) [] w')
    as [Hd' [evs' [Ht' Hall']]].
  split; [etransitivity; [exact Hd' | exact Hd] | ].
  exists (evs ++ evs'). split; [ | now apply Forall_app].
  transitivity (chrono w' ++ evs'); [exact Ht' | now rewrite Ht, app_assoc].
Qed.

Lemma reads_only_append_history (cosmos_messages : list session_dict) :
  forall chat_prompt, reads_only (append_history cosmos_messages chat_prompt).
Proof.
  induction cosmos_messages as [|msg rest IH]; intros chat_prompt; simpl.
  - apply reads_only_ret.
  - apply reads_only_bind; [apply reads_only_raise | ].
    intros r. apply reads_only_bind; [apply reads_only_raise | ].
    intros c. apply IH.
Qed.

Lemma reads_only_retry_loop (e : env) (max_retries delay : Z)
      (chat_prompt : list message) (hits : list chunk) (attempts : list nat) :
  forall last_error,
    reads_only (retry_loop e max_retries delay chat_prompt hits last_error attempts).
Proof.
  induction attempts as [|attempt rest IH]; intros last_error.
  - simpl. destruct last_error; [apply reads_only_raise | apply reads_only_ret].
  - intros w. rewrite retry_loop_step. cbv zeta.
    set (w1 := log (EvLLM chat_prompt)
                   (if (0 <? attempt)%nat then log (EvSleep delay) w else w)).
    assert (Hw1 : docs w1 = docs w /\ chrono w1 = chrono w
                                                  ++ attempt_events delay chat_prompt attempt
                  /\ Forall (fun ev => is_write ev = false)
                            (attempt_events delay chat_prompt attempt)).
    { subst w1. rewrite chrono_attempt. unfold attempt_events.
      destruct (0 <? attempt)%nat; repeat split; repeat constructor. }
    destruct Hw1 as [Hd [Ht Hall]].
    destruct (attempt_outcome e (calls is_llm_call w) chat_prompt) as [x | err];
      [simpl; eauto | ].
    destruct (Z.of_nat attempt >=? max_retries - 1)%Z; [simpl; eauto | ].
    destruct (IH (Some err) w1) as [Hd' [evs' [Ht' Hall']]].
    split; [congruence | ].
    exists (attempt_events delay chat_prompt attempt ++ evs').
    split; [ | now apply Forall_app].
    now rewrite Ht', Ht, app_assoc.
Qed.

Lemma reads_only_generation (e : env) (user_input session_id : string)
      (max_retries delay : Z) :
  reads_only (call_llm_async_with_retry e user_input session_id max_retries delay).
Proof.
  unfold call_llm_async_with_retry.
  apply (reads_only_then (get_last_messages_from_cosmos e session_id 5)
           (fun cosmos_messages =>
              top_chunks <- query_azure_search e (user_input ++ "?")%string 5 ;;
              chat_prompt <- append_history cosmos_messages [] ;;
              retry_loop e max_retries delay
                (chat_prompt ++
                   [{| m_role := PyStr "user";
                       m_content :=
                         PyStr (prompt_header e ++ format_chunks_for_prompt top_chunks
                                ++ nl ++ nl ++ "QUESTION: " ++ user_input ++ "?")%string |}])
                top_chunks None (seq 0 (Z.to_nat max_retries)))).
  - apply reads_only_history.
  - intros cosmos_messages. apply reads_only_bind.
    + unfold query_azure_search. apply reads_only_bind.
      * unfold search_post. now apply reads_only_log.
      * intros results. apply reads_only_ret.
    + intros top_chunks. apply reads_only_bind; [apply reads_only_append_history | ].
      intros chat_prompt. apply reads_only_retry_loop.
Qed.

(** ** The generation call *)

(** The first element of a non-empty history has no ["role"] key. *)
Lemma append_history_nonempty (msg : session_dict) (rest : list session_dict)
      (chat_prompt : list message) (w : world) :
  append_history (msg :: rest) chat_prompt w = (Raise (KeyError "role"), w).
Proof. reflexivity. Qed.

(** The generation call up to its loop: history, search, message list. *)
Lemma generation_unfold (e : env) (user_input session_id : string)
      (max_retries delay : Z) (w : world) :
  call_llm_async_with_retry e user_input session_id max_retries delay w
  = let (cosmos_messages, w1) := get_last_messages_from_cosmos e session_id 5 w in
    let w2 := log (EvSearch (user_input ++ "?")%string 5) w1 in
    match search_reply e (calls is_search_call w1) (user_input ++ "?")%string 5 with
    | Raise x => (Raise x, w2)
    | Ok results =>
        let hits := slice_to 5 (sorted_by by_reranker_desc results) in
        match cosmos_messages with
        | [] =>
            retry_loop e max_retries delay [prompt_message e user_input hits] hits
                       None (seq 0 (Z.to_nat max_retries)) w2
        | _ :: _ => (Raise (KeyError "role"), w2)
        end
    end.
Proof.
  unfold call_llm_async_with_retry.
  destruct (get_last_messages_from_cosmos e session_id 5 w) as [cosmos_messages w1].
  unfold query_azure_search, search_post, bind at 1 2, ret at 1.
  destruct (search_reply e (calls is_search_call w1) (user_input ++ "?")%string 5)
    as [results | x]; [ | reflexivity].
  destruct cosmos_messages as [|msg rest]; reflexivity.
Qed.

(** With no history and an index that answers, the generation call is the
    retry loop on the single prompt message. *)
Lemma generation_runs_retry_loop (e : env) (user_input session_id : string)
      (max_retries delay : Z) (w : world) (results : list chunk) :
  let w1 := snd (get_last_messages_from_cosmos e session_id 5 w) in
  let hits := slice_to 5 (sorted_by by_reranker_desc results) in
  fst (get_last_messages_from_cosmos e session_id 5 w) = [] ->
  search_reply e (calls is_search_call w1) (user_input ++ "?")%string 5 = Ok results ->
  call_llm_async_with_retry e user_input session_id max_retries delay w
  = retry_loop e max_retries delay [prompt_message e user_input hits] hits None
               (seq 0 (Z.to_nat max_retries))
               (log (EvSearch (user_input ++ "?")%string 5) w1).
Proof.
  intros w1 hits. subst w1 hits. rewrite generation_unfold.
  destruct (get_last_messages_from_cosmos e session_id 5 w) as [cosmos_messages w1].
  simpl. intros -> ->. reflexivity.
Qed.

(** What a returned answer tells: the history was empty, the index
    answered, and the loop ran on the first five sorted hits. *)
Lemma retry_loop_answer (e : env) (max_retries delay : Z) (chat_prompt : list message)
      (hits : list chunk) (attempts : list nat) :
  forall last_error w r,
    fst (retry_loop e max_retries delay chat_prompt hits last_error attempts w)
    = Ok (Some r) ->
    top_chunks r = map to_attribution (slice_to 2 hits)
    /\ exists evs,
        chrono (snd (retry_loop e max_retries delay chat_prompt hits last_error
                                attempts w))
        = chrono w ++ evs
        /\ In (EvLLM chat_prompt) evs.
Proof.
  induction attempts as [|attempt rest IH]; intros last_error w r.
  - simpl. destruct last_error; discriminate.
  - rewrite retry_loop_step. cbv zeta.
    set (w1 := log (EvLLM chat_prompt)
                   (if (0 <? attempt)%nat then log (EvSleep delay) w else w)).
    assert (Hw1 : chrono w1 = chrono w ++ attempt_events delay chat_prompt attempt)
      by apply chrono_attempt.
    assert (Hin : In (EvLLM chat_prompt) (attempt_events delay chat_prompt attempt))
      by (unfold attempt_events; apply in_or_app; right; now left).
    destruct (attempt_outcome e (calls is_llm_call w) chat_prompt) as [x | err].
    + simpl. intros H. injection H as <-. split; [reflexivity | eauto].
    + destruct (Z.of_nat attempt >=? max_retries - 1)%Z; [discriminate | ].
      intros H. destruct (IH _ _ _ H) as [Hr [evs [Ht Hevs]]].
      split; [assumption | ].
      exists (attempt_events delay chat_prompt attempt ++ evs).
      split; [now rewrite Ht, Hw1, app_assoc | apply in_or_app; now left].
Qed.

Lemma generation_answer (e : env) (user_input session_id : string)
      (max_retries delay : Z) (w : world) (r : llm_result) :
  fst (call_llm_async_with_retry e user_input session_id max_retries delay w)
  = Ok (Some r) ->
  fst (get_last_messages_from_cosmos e session_id 5 w) = []
  /\ (exists results,
         top_chunks r
         = map to_attribution
               (slice_to 2 (slice_to 5 (sorted_by by_reranker_desc results))))
  /\ exists evs msgs,
      chrono (snd (call_llm_async_with_retry e user_input session_id max_retries
                                             delay w))
      = chrono w ++ evs
      /\ In (EvLLM msgs) evs.
Proof.
  rewrite generation_unfold.
  destruct (reads_only_history e session_id 5 w) as [_ [evs0 [Ht0 _]]].
  destruct (get_last_messages_from_cosmos e session_id 5 w) as [cosmos_messages w1].
  cbv zeta. simpl in Ht0.
  destruct (search_reply e (calls is_search_call w1) (user_input ++ "?")%string 5)
    as [results | x]; [ | discriminate].
  destruct cosmos_messages as [|msg rest]; [ | discriminate].
  intros H. destruct (retry_loop_answer _ _ _ _ _ _ _ _ _ H) as [Hr [evs [Ht Hin]]].
  split; [reflexivity | split; [eauto | ]].
  eexists (evs0 ++ EvSearch (user_input ++ "?")%string 5 :: evs), _.
  split; [ | apply in_or_app; right; right; exact Hin].
  rewrite Ht, chrono_log, Ht0, <- !app_assoc. reflexivity.
Qed.

(** C2: the history fetch returns one dict per session, with the keys
    ["session_id"] and ["messages"], and the generation call subscripts
    each of them with ["role"].  So on a chat request whose session id is
    also a user id with stored turns (here: its own, the user turn just
    written) the history is not empty, the call raises [KeyError('role')]
    before any message reaches the model, and the route answers 500; the
    same happens on a direct call for a user with stored turns. *)
Theorem nonempty_history_raises_key_error :
  fst (chat quiet_env own_session_request empty_world) = JSONResponse "'role'" 500
  /\ filter is_llm_call (trace (snd (chat quiet_env own_session_request empty_world)))
     = []
  /\ fst (get_last_messages_from_cosmos quiet_env "u" 5 sample_world) <> []
  /\ fst (call_llm_async_with_retry quiet_env "q" "u" 3 2 sample_world)
     = Raise (KeyError "role").
Proof.
  split; [reflexivity | split; [reflexivity | split; [discriminate | reflexivity]]].
Qed.

(** Any non-empty history makes the generation call raise, the index
    having answered. *)
Lemma generation_with_history_raises (e : env) (user_input session_id : string)
      (max_retries delay : Z) (w : world) :
  fst (get_last_messages_from_cosmos e session_id 5 w) <> [] ->
  is_raise (search_reply e
              (calls is_search_call (snd (get_last_messages_from_cosmos e session_id 5 w)))
              (user_input ++ "?")%string 5) = false ->
  fst (call_llm_async_with_retry e user_input session_id max_retries delay w)
  = Raise (KeyError "role").
Proof.
  rewrite generation_unfold.
  destruct (get_last_messages_from_cosmos e session_id 5 w) as [cosmos_messages w1].
  simpl. intros Hne Hs.
  destruct (search_reply e (calls is_search_call w1) (user_input ++ "?")%string 5);
    [ | discriminate].
  destruct cosmos_messages; [congruence | reflexivity].
Qed.

(** ** Attributions *)




(** ** The chat route *)

Lemma list_or_some {A : Type} (l : list A) : list_or (Some l) [] = l.
Proof. now destruct l. Qed.

Lemma string_or_same (s : string) : string_or (Some s) s = s.
Proof. now destruct s. Qed.

(** The route, one collaborator at a time. *)
Lemma chat_unfold (e : env) (request : ChatRequest) (w : world) :
  chat e request w
  = match store_fault e (calls is_store_call w) with
    | Some x => (JSONResponse (str_exn x) 500, log (EvCreate (user_turn e request w)) w)
    | None =>
        match generation e request (after_user_turn e request w) with
        | (Raise x, w2) => (JSONResponse (str_exn x) 500, w2)
        | (Ok None, w2) =>
            (JSONResponse "'NoneType' object is not subscriptable" 500, w2)
        | (Ok (Some r), w2) =>
            let a := assistant_turn e request r w2 in
            match store_fault e (calls is_store_call w2) with
            | Some x => (JSONResponse (str_exn x) 500, log (EvCreate a) w2)
            | None =>
                (chat_response e request r w2,
                 {| docs := docs w2 ++ [a]; trace := EvCreate a :: trace w2 |})
            end
        end
    end.
Proof.
  unfold chat, route, save_message_to_cosmos, now, new_uuid, time_elapsed,
    create_item, store_call, get_docs, put_docs, bind, ret, raise.
  cbv beta iota. rewrite !list_or_some, !string_or_same.
  destruct (store_fault e (calls is_store_call w)); [reflexivity | ].
  fold (generation e request).
  match goal with
  | |- context [generation e request ?W] =>
      change W with (after_user_turn e request w)
  end.
  destruct (generation e request (after_user_turn e request w)) as [[[r | ] | x] w2];
    try reflexivity.
  cbv beta iota zeta. rewrite !list_or_some, !string_or_same.
  destruct (store_fault e (calls is_store_call w2)); reflexivity.
Qed.

(** C5: the first thing a chat request does is to write the user turn.
    A generation call is only made once the store has accepted that write,
    and the user turn is in the store when the route returns.  The only
    other write is that of the assistant turn: it is the last event of the
    request and comes after a call of the model, the generation call having
    returned an answer.  Hence when the generation call raises (as it does
    when every attempt failed) the caller gets the 500 answer and the store
    is the old store with the user turn appended. *)
Theorem chat_writes_user_turn_before_generation (e : env) (request : ChatRequest)
        (w : world) :
  let u := user_turn e request w in
  let out := chat e request w in
  exists evs,
    chrono (snd out) = chrono w ++ EvCreate u :: evs
    /\ ((exists msgs, In (EvLLM msgs) evs) ->
        store_fault e (calls is_store_call w) = None /\ In u (docs (snd out)))
    /\ (forall a, In (EvCreate a) evs ->
                  it_role a = "assistant"
                  /\ exists pre msgs r,
                      evs = pre ++ [EvCreate a]
                      /\ In (EvLLM msgs) pre
                      /\ fst (generation e request (after_user_turn e request w))
                         = Ok (Some r)
                      /\ it_top_chunks a = top_chunks r)
    /\ (store_fault e (calls is_store_call w) = None ->
        forall x,
          fst (generation e request (after_user_turn e request w)) = Raise x ->
          fst out = JSONResponse (str_exn x) 500
          /\ docs (snd out) = docs w ++ [u]).
Proof.
  intros u out. subst out. rewrite chat_unfold.
  destruct (store_fault e (calls is_store_call w)) as [x0 | ] eqn:Hstore.
  { exists []. split; [reflexivity | ].
    split; [intros [msgs []] | split; [intros a [] | discriminate]]. }
  set (w1 := after_user_turn e request w).
  assert (Hw1 : chrono w1 = chrono w ++ [EvCreate u]) by reflexivity.
  assert (Hu : In u (docs w1)) by (apply in_or_app; right; now left).
  destruct (reads_only_generation e (message_of request) (session_id_of request) 3 2 w1)
    as [Hd [evs [Ht Hall]]].
  fold (generation e request) in Hd, Ht.
  pose proof (generation_answer e (message_of request) (session_id_of request) 3 2 w1)
    as Hans.
  fold (generation e request) in Hans.
  assert (Hnow : forall a, In (EvCreate a) evs -> False).
  { intros a Ha. rewrite Forall_forall in Hall. specialize (Hall _ Ha). discriminate. }
  destruct (generation e request w1) as [[[r | ] | x] w2]; cbn [fst snd] in Hd, Ht, Hans.
  - destruct (Hans r eq_refl) as [_ [_ [evs' [msgs [Ht' Hin]]]]].
    assert (evs' = evs) by (rewrite Ht in Ht'; now apply app_inv_head in Ht').
    subst evs'. cbv zeta.
    exists (evs ++ [EvCreate (assistant_turn e request r w2)]).
    assert (Hlast : forall a,
               In (EvCreate a) (evs ++ [EvCreate (assistant_turn e request r w2)]) ->
               it_role a = "assistant"
               /\ exists pre msgs0 r0,
                   evs ++ [EvCreate (assistant_turn e request r w2)]
                   = pre ++ [EvCreate a]
                   /\ In (EvLLM msgs0) pre
                   /\ fst (Ok (Some r), w2) = Ok (Some r0)
                   /\ it_top_chunks a = top_chunks r0).
    { intros a Ha. apply in_app_or in Ha. destruct Ha as [Ha | [Ha | []]];
        [destruct (Hnow a Ha) | ].
      injection Ha as <-. split; [reflexivity | ].
      exists evs, msgs, r. repeat split; assumption. }
    assert (Htr : chrono w2 ++ [EvCreate (assistant_turn e request r w2)]
                  = chrono w ++ EvCreate u
                             :: evs ++ [EvCreate (assistant_turn e request r w2)])
      by (rewrite Ht, Hw1, <- !app_assoc; reflexivity).
    destruct (store_fault e (calls is_store_call w2)); cbn [fst snd].
    + split; [exact Htr | ].
      split; [intros _; split; [reflexivity | ] | ].
      { rewrite docs_log, Hd. exact Hu. }
      split; [exact Hlast | discriminate].
    + split; [exact Htr | ].
      split; [intros _; split; [reflexivity | ] | ].
      { cbn [docs]. apply in_or_app; left. rewrite Hd. exact Hu. }
      split; [exact Hlast | discriminate].
  - exists evs. cbn [fst snd].
    split; [rewrite Ht, Hw1, <- !app_assoc; reflexivity | ].
    split; [intros _; split; [reflexivity | rewrite Hd; exact Hu] | ].
    split; [intros a Ha; destruct (Hnow a Ha) | discriminate].
  - exists evs. cbn [fst snd].
    split; [rewrite Ht, Hw1, <- !app_assoc; reflexivity | ].
    split; [intros _; split; [reflexivity | rewrite Hd; exact Hu] | ].
    split; [intros a Ha; destruct (Hnow a Ha) | ].
    intros _ x' Hx. injection Hx as <-. split; [reflexivity | exact Hd].
Qed.

Lemma chat_writes_user_turn_before_generation_witness :
  fst (chat failing_llm_env fresh_request sample_world)
  = JSONResponse "rate limit 2" 500
  /\ docs (snd (chat failing_llm_env fresh_request sample_world))
     = docs sample_world ++ [user_turn failing_llm_env fresh_request sample_world].
Proof.
  destruct (chat_writes_user_turn_before_generation failing_llm_env fresh_request
              sample_world) as [evs [_ [_ [_ H]]]].
  apply (H eq_refl (ServiceError "rate limit 2")). reflexivity.
Defined.

(** ** End-to-end runs *)

(** The model fails twice and answers the third attempt: the caller gets
    the answer, with the scores of the two best hits, and both turns are
    stored. *)
Example chat_answers_after_two_failures :
  fst (chat flaky_env fresh_request empty_world)
  = ChatOk {| cr_response := "answer";
              cr_session_id := "s9";
              cr_elapsed_time := 0%Q;
              cr_first_chunk := Some {| search_score := (300 # 10000)%Q;
                                        reranker_score := (9000 # 10000)%Q |};
              cr_second_chunk := Some {| search_score := (123 # 10000)%Q;
                                         reranker_score := (5000 # 10000)%Q |} |}
  /\ map it_role (docs (snd (chat flaky_env fresh_request empty_world)))
     = ["user"; "assistant"]
  /\ filter (fun ev => is_llm_call ev || negb (is_store_call ev || is_search_call ev))
            (map (fun ev => match ev with EvLLM _ => EvLLM [] | _ => ev end)
                 (chrono (snd (chat flaky_env fresh_request empty_world))))
     = [EvLLM []; EvSleep 2; EvLLM []; EvSleep 2; EvLLM []].
Proof. repeat split; reflexivity. Qed.

(** * Further properties of the code *)

(** ** Order on timestamps *)

Lemma ascii_compare_lt_trans (a b c : ascii) :
  Ascii.compare a b = Lt -> Ascii.compare b c = Lt -> Ascii.compare a c = Lt.
Proof.
  unfold Ascii.compare. rewrite !N.compare_lt_iff. apply N.lt_trans.
Qed.

Lemma string_compare_eq (s1 s2 : string) : String.compare s1 s2 = Eq -> s1 = s2.
Proof. apply String.compare_eq_iff. Qed.

Lemma string_compare_lt_trans (s1 : string) :
  forall s2 s3,
    String.compare s1 s2 = Lt -> String.compare s2 s3 = Lt ->
    String.compare s1 s3 = Lt.
Proof.
  induction s1 as [|c1 s1 IH]; intros [|c2 s2] [|c3 s3]; simpl; try congruence.
  destruct (Ascii.compare c1 c2) eqn:H12; try discriminate;
    destruct (Ascii.compare c2 c3) eqn:H23; try discriminate.
  - apply Ascii.compare_eq_iff in H12. apply Ascii.compare_eq_iff in H23. subst.
    assert (H : Ascii.compare c3 c3 = Eq)
      by (unfold Ascii.compare; apply N.compare_refl).
    rewrite H. apply IH.
  - apply Ascii.compare_eq_iff in H12. subst. now rewrite H23.
  - apply Ascii.compare_eq_iff in H23. subst. now rewrite H12.
  - now rewrite (ascii_compare_lt_trans _ _ _ H12 H23).
Qed.

Lemma string_leb_trans (s1 s2 s3 : string) :
  String.leb s1 s2 = true -> String.leb s2 s3 = true -> String.leb s1 s3 = true.
Proof.
  unfold String.leb.
  destruct (String.compare s1 s2) eqn:H12; try discriminate;
    destruct (String.compare s2 s3) eqn:H23; try discriminate; intros _ _.
  - apply string_compare_eq in H12. subst s1. now rewrite H23.
  - apply string_compare_eq in H12. subst. now rewrite H23.
  - apply string_compare_eq in H23. subst. now rewrite H12.
  - now rewrite (string_compare_lt_trans _ _ _ H12 H23).
Qed.

(** ** More on the history fetch *)

Lemma query_sessions_run (e : env) (user_id : string) (w : world) :
  query_sessions e user_id w
  = match store_fault e (calls is_store_call w) with
    | Some x => (Raise x, log (EvQuerySessions user_id) w)
    | None => (Ok (select_sessions (docs w) user_id), log (EvQuerySessions user_id) w)
    end.
Proof.
  unfold query_sessions, store_call, get_docs, bind, ret.
  now destruct (store_fault e (calls is_store_call w)).
Qed.

Lemma query_messages_run (e : env) (user_id session_id : string) (w : world) :
  query_messages e user_id session_id w
  = match store_fault e (calls is_store_call w) with
    | Some x => (Raise x, log (EvQueryMessages user_id session_id) w)
    | None => (Ok (select_messages (docs w) user_id session_id),
               log (EvQueryMessages user_id session_id) w)
    end.
Proof.
  unfold query_messages, store_call, get_docs, bind, ret.
  now destruct (store_fault e (calls is_store_call w)).
Qed.

(** X1: with the store enabled and answering, and a limit of at least one,
    [get_latest_session_ids] returns the session ids of the user's turns,
    most recent turn first, each id kept at its first occurrence only, cut
    after [limit] ids. *)
Theorem latest_session_ids_dedup_then_limit (e : env) (user_id : string) (limit : Z)
        (w : world) :
  cosmos_enabled e = true ->
  store_fault e (calls is_store_call w) = None ->
  (1 <= limit)%Z ->
  fst (get_latest_session_ids e user_id limit w)
  = Some (firstn (Z.to_nat limit)
                 (first_occurrences [] (map sr_session_id
                                            (select_sessions (docs w) user_id)))).
Proof.
  intros Hen Hup Hlim. unfold get_latest_session_ids.
  rewrite Hen, query_sessions_run, Hup. simpl.
  rewrite unique_loop_dedup_then_limit by (simpl; lia).
  simpl. now rewrite Nat.sub_0_r.
Qed.

Lemma latest_session_ids_dedup_then_limit_witness :
  fst (get_latest_session_ids quiet_env "u" 1 sample_world) = Some ["s2"]
  /\ fst (get_latest_session_ids quiet_env "u" 5 sample_world) = Some ["s2"; "s1"].
Proof.
  split.
  - apply (latest_session_ids_dedup_then_limit quiet_env "u" 1 sample_world);
      [reflexivity | reflexivity | lia].
  - apply (latest_session_ids_dedup_then_limit quiet_env "u" 5 sample_world);
      [reflexivity | reflexivity | lia].
Defined.

(** X2: for a limit of at least one, whatever the store does, the history
    fetch returns at most [limit] sessions and no session id twice. *)
Theorem history_sessions_bounded (e : env) (user_id : string) (limit : Z) (w : world) :
  (1 <= limit)%Z ->
  NoDup (map sd_session_id (fst (get_last_messages_from_cosmos e user_id limit w)))
  /\ (Z.of_nat (length (fst (get_last_messages_from_cosmos e user_id limit w)))
      <= limit)%Z.
Proof. apply history_bounded_for_positive_limit. Qed.

Lemma history_sessions_bounded_witness :
  NoDup (map sd_session_id (fst (get_last_messages_from_cosmos quiet_env "u" 1
                                                                sample_world)))
  /\ (Z.of_nat (length (fst (get_last_messages_from_cosmos quiet_env "u" 1
                                                            sample_world))) <= 1)%Z.
Proof.
  apply (history_sessions_bounded quiet_env "u" 1 sample_world). lia.
Defined.

Lemma collect_sessions_surviving (e : env) (user_id : string)
      (session_ids : list string) :
  forall messages w,
    map sd_session_id (fst (collect_sessions e user_id session_ids messages w))
    = map sd_session_id messages ++ surviving e (calls is_store_call w) session_ids.
Proof.
  induction session_ids as [|sid rest IH]; intros messages w; simpl.
  - now rewrite app_nil_r.
  - rewrite query_messages_run.
    destruct (store_fault e (calls is_store_call w)); rewrite IH, calls_log; simpl.
    + reflexivity.
    + now rewrite map_app, <- app_assoc.
Qed.

Lemma history_session_ids (e : env) (user_id : string) (limit : Z) (w : world) :
  cosmos_enabled e = true ->
  store_fault e (calls is_store_call w) = None ->
  map sd_session_id (fst (get_last_messages_from_cosmos e user_id limit w))
  = surviving e (S (calls is_store_call w))
              (unique_loop limit (select_sessions (docs w) user_id) [] []).
Proof.
  intros Hen Hup. unfold get_last_messages_from_cosmos, get_latest_session_ids.
  rewrite Hen, query_sessions_run, Hup. cbn [negb fst snd].
  destruct (unique_loop limit (select_sessions (docs w) user_id) [] [])
    as [|sid sids]; [reflexivity | ].
  rewrite collect_sessions_surviving, calls_log. reflexivity.
Qed.

(** X3: a message query that raises costs the fetch that one session and
    no other: with the store enabled and the session-id query answered, the
    sessions returned are, in order, those selected sessions whose own
    query is answered. *)
Theorem history_skips_failed_sessions (e : env) (user_id : string) (limit : Z)
        (w : world) :
  cosmos_enabled e = true ->
  store_fault e (calls is_store_call w) = None ->
  map sd_session_id (fst (get_last_messages_from_cosmos e user_id limit w))
  = surviving e (S (calls is_store_call w))
              (unique_loop limit (select_sessions (docs w) user_id) [] []).
Proof. apply history_session_ids. Qed.

Lemma history_skips_failed_sessions_witness :
  let e := {| cosmos_enabled := true;
              store_fault := fun n => if (n =? 1)%nat
                                      then Some (ServiceError "timeout") else None;
              search_reply := search_reply quiet_env;
              llm_reply := llm_reply quiet_env;
              uuid4 := uuid4 quiet_env;
              utcnow := utcnow quiet_env;
              elapsed := elapsed quiet_env;
              str_float := str_float quiet_env;
              prompt_header := prompt_header quiet_env |} in
  map sd_session_id (fst (get_last_messages_from_cosmos e "u" 5 sample_world))
  = ["s1"].
Proof.
  intros e.
  apply (history_skips_failed_sessions e "u" 5 sample_world); reflexivity.
Defined.

Lemma select_messages_rows (d : list item) (user_id session_id : string) :
  Permutation (select_messages d user_id session_id)
              (map row_of (filter (fun c => String.eqb (it_user_id c) user_id
                                            && String.eqb (it_session_id c) session_id)
                                  d)).
Proof.
  unfold select_messages. apply Permutation_map, sorted_by_perm.
Qed.

Lemma collect_sessions_sorted (e : env) (user_id : string) (d : list item)
      (session_ids : list string) :
  let good (sd : session_dict) :=
    StronglySorted (fun a b => String.leb (mr_timestamp a) (mr_timestamp b) = true)
                   (sd_messages sd)
    /\ Permutation (sd_messages sd)
                   (map row_of
                        (filter (fun c => String.eqb (it_user_id c) user_id
                                          && String.eqb (it_session_id c)
                                                        (sd_session_id sd)) d)) in
  forall messages w,
    docs w = d -> Forall good messages ->
    Forall good (fst (collect_sessions e user_id session_ids messages w)).
Proof.
  intros good. induction session_ids as [|sid rest IH]; intros messages w Hd Hall;
    simpl; [assumption | ].
  rewrite query_messages_run.
  destruct (store_fault e (calls is_store_call w)).
  - apply IH; assumption.
  - apply IH; [assumption | ].
    apply Forall_app. split; [assumption | ].
    constructor; [ | constructor]. split; simpl.
    + apply sorted_by_sorted.
      * intros x y. apply String.leb_total.
      * intros x y z. apply string_leb_trans.
    + rewrite sorted_by_perm, Hd. apply select_messages_rows.
Qed.

(** X4: every session that the history fetch returns carries exactly the
    stored turns of that user and that session (as id, role, content and
    timestamp), in ascending order of timestamp. *)
Theorem history_messages_ascending (e : env) (user_id : string) (limit : Z)
        (w : world) :
  Forall (fun sd =>
            StronglySorted
              (fun a b => String.leb (mr_timestamp a) (mr_timestamp b) = true)
              (sd_messages sd)
            /\ Permutation
                 (sd_messages sd)
                 (map row_of
                      (filter (fun c => String.eqb (it_user_id c) user_id
                                        && String.eqb (it_session_id c)
                                                      (sd_session_id sd))
                              (docs w))))
         (fst (get_last_messages_from_cosmos e user_id limit w)).
Proof.
  unfold get_last_messages_from_cosmos, get_latest_session_ids.
  destruct (cosmos_enabled e); cbn [negb fst]; [ | constructor].
  rewrite query_sessions_run.
  destruct (store_fault e (calls is_store_call w)); cbn [fst]; [constructor | ].
  destruct (unique_loop limit (select_sessions (docs w) user_id) [] [])
    as [|sid sids]; cbn [fst]; [constructor | ].
  apply (collect_sessions_sorted e user_id (docs w) (sid :: sids));
    [reflexivity | constructor].
Qed.

(** ** Computations with restricted effects *)

Lemma effects_ret {A : Type} (P : event -> bool) (a : A) : effects P (ret a).
Proof. intros w. split; [reflexivity | ]. exists []. now rewrite app_nil_r. Qed.

Lemma effects_raise {A : Type} (P : event -> bool) (x : exn) : effects P (@raise A x).
Proof. intros w. split; [reflexivity | ]. exists []. now rewrite app_nil_r. Qed.

Lemma effects_chain {X Y : Type} (P : event -> bool) (f : world -> X * world)
      (g : X -> world -> Y * world) (w : world) :
  effects P f -> (forall x, effects P (g x)) ->
  docs (snd (g (fst (f w)) (snd (f w)))) = docs w
  /\ exists evs, chrono (snd (g (fst (f w)) (snd (f w)))) = chrono w ++ evs
                 /\ forallb P evs = true.
Proof.
  intros Hf Hg. destruct (Hf w) as [Hd [evs [Ht Hall]]].
  destruct (Hg (fst (f w)) (snd (f w))) as [Hd' [evs' [Ht' Hall']]].
  split; [congruence | ].
  exists (evs ++ evs'). split; [now rewrite Ht', Ht, app_assoc | ].
  rewrite forallb_app, Hall, Hall'. reflexivity.
Qed.

Lemma effects_bind {A B : Type} (P : event -> bool) (c : M A) (k : A -> M B) :
  effects P c -> (forall a, effects P (k a)) -> effects P (bind c k).
Proof.
  intros Hc Hk w.
  pose proof (effects_chain P c
                (fun r => match r with Ok a => k a | Raise x => raise x end) w Hc) as H.
  unfold bind. destruct (c w) as [[a | x] w']; apply H;
    intros [a' | x']; auto using effects_raise.
Qed.

Lemma effects_log {A : Type} (P : event -> bool) (ev : event) (f : world -> A) :
  P ev = true -> effects P (fun w => (f w, log ev w)).
Proof.
  intros Hev w. split; [reflexivity | ]. exists [ev]. split; [reflexivity | ].
  simpl. now rewrite Hev.
Qed.

Lemma effects_weaken {X : Type} (P Q : event -> bool) (f : world -> X * world) :
  (forall ev, P ev = true -> Q ev = true) -> effects P f -> effects Q f.
Proof.
  intros HPQ Hf w. destruct (Hf w) as [Hd [evs [Ht Hall]]].
  split; [assumption | ]. exists evs. split; [assumption | ].
  rewrite forallb_forall in *. auto.
Qed.

Lemma effects_query_sessions (e : env) (user_id : string) :
  effects is_query (query_sessions e user_id).
Proof.
  intros w. rewrite query_sessions_run.
  destruct (store_fault e (calls is_store_call w));
    (split; [reflexivity | exists [EvQuerySessions user_id]; now split]).
Qed.

Lemma effects_query_messages (e : env) (user_id session_id : string) :
  effects is_query (query_messages e user_id session_id).
Proof.
  intros w. rewrite query_messages_run.
  destruct (store_fault e (calls is_store_call w));
    (split; [reflexivity | exists [EvQueryMessages user_id session_id]; now split]).
Qed.

Lemma effects_collect_sessions (e : env) (user_id : string)
      (session_ids : list string) :
  forall messages, effects is_query (collect_sessions e user_id session_ids messages).
Proof.
  induction session_ids as [|sid rest IH]; intros messages.
  - intros w. split; [reflexivity | ]. exists []. now rewrite app_nil_r.
  - intros w.
    pose proof (effects_chain is_query (query_messages e user_id sid)
                  (fun r => match r with
                            | Ok items =>
                                collect_sessions e user_id rest
                                  (messages ++
                                     [{| sd_session_id := sid;
                                         sd_messages :=
                                           sorted_by
                                             (fun x y => String.leb (mr_timestamp x)
                                                                    (mr_timestamp y))
                                             items |}])
                            | Raise _ => collect_sessions e user_id rest messages
                            end) w (effects_query_messages e user_id sid)) as H.
    simpl. destruct (query_messages e user_id sid w) as [[items | x] w']; apply H;
      intros [items' | x']; apply IH.
Qed.

Lemma effects_history (e : env) (user_id : string) (limit : Z) :
  effects is_query (get_last_messages_from_cosmos e user_id limit).
Proof.
  - unfold get_last_messages_from_cosmos, get_latest_session_ids.
    destruct (cosmos_enabled e); cbn [negb];
      [ | intros w; split; [reflexivity | exists []; now rewrite app_nil_r]].
    intros w. destruct (effects_query_sessions e user_id w) as [Hd [evs [Ht Hall]]].
    destruct (query_sessions e user_id w) as [[items | x] w']; cbn [fst snd] in *;
      [ | split; [exact Hd | exists evs; now split]].
    destruct (unique_loop limit items [] []) as [|sid sids];
      [split; [exact Hd | exists evs; now split] | ].
    destruct (effects_collect_sessions e user_id (sid :: sids) [] w')
      as [Hd' [evs' [Ht' Hall']]].
    split; [etransitivity; [exact Hd' | exact Hd] | ].
    exists (evs ++ evs'). split.
    + transitivity (chrono w' ++ evs'); [exact Ht' | now rewrite Ht, app_assoc].
    + now rewrite forallb_app, Hall, Hall'.
Qed.

(** X5: the history fetch changes no stored document and the only calls it
    issues are its two queries; with the store disabled it issues no call
    at all. *)
Theorem history_fetch_only_queries (e : env) (user_id : string) (limit : Z) :
  effects is_query (get_last_messages_from_cosmos e user_id limit)
  /\ (cosmos_enabled e = false ->
      forall w, snd (get_last_messages_from_cosmos e user_id limit w) = w).
Proof.
  split; [apply effects_history | ].
  intros Hoff w. unfold get_last_messages_from_cosmos. now rewrite Hoff.
Qed.

Lemma history_fetch_only_queries_witness :
  snd (get_last_messages_from_cosmos disabled_env "u" 5 sample_world) = sample_world.
Proof.
  apply (history_fetch_only_queries disabled_env "u" 5). reflexivity.
Defined.

Lemma surviving_quiet (e : env) (session_ids : list string) :
  (forall n, store_fault e n = None) ->
  forall c, surviving e c session_ids = session_ids.
Proof.
  intros Hq. induction session_ids as [|sid rest IH]; intros c; simpl;
    [reflexivity | ].
  now rewrite Hq, IH.
Qed.

Lemma first_occurrences_nil (l : list string) :
  first_occurrences [] l = [] <-> l = [].
Proof. destruct l; simpl; split; congruence. Qed.

Lemma filter_nil_iff {A : Type} (p : A -> bool) (l : list A) :
  filter p l = [] <-> forall x, In x l -> p x = false.
Proof.
  induction l as [|y l IH]; simpl; [tauto | ].
  destruct (p y) eqn:Hy; split.
  - discriminate.
  - intros H. specialize (H y (or_introl eq_refl)). congruence.
  - intros H x [<- | Hx]; [assumption | now apply IH].
  - intros H. apply IH. auto.
Qed.

Lemma select_sessions_nil_iff (d : list item) (user_id : string) :
  select_sessions d user_id = []
  <-> forall c, In c d -> it_user_id c <> user_id.
Proof.
  unfold select_sessions.
  rewrite <- length_zero_iff_nil, length_map, sorted_by_length, length_zero_iff_nil,
    filter_nil_iff.
  split; intros H c Hc; specialize (H c Hc).
  - now apply String.eqb_neq.
  - now apply String.eqb_neq.
Qed.

Lemma history_empty_iff (e : env) (user_id : string) (limit : Z)
        (w : world) :
  cosmos_enabled e = true ->
  (forall n, store_fault e n = None) ->
  (1 <= limit)%Z ->
  fst (get_last_messages_from_cosmos e user_id limit w) = []
  <-> forall c, In c (docs w) -> it_user_id c <> user_id.
Proof.
  intros Hen Hq Hlim.
  rewrite <- select_sessions_nil_iff.
  assert (Hmap : forall l : list session_dict, l = [] <-> map sd_session_id l = [])
    by (intros [|x l]; simpl; split; congruence).
  rewrite Hmap.
  rewrite history_session_ids by auto.
  rewrite surviving_quiet by assumption.
  rewrite unique_loop_dedup_then_limit by (simpl; lia).
  cbn [app length]. rewrite Nat.sub_0_r.
  destruct (select_sessions (docs w) user_id) as [|row rows]; simpl.
  - rewrite firstn_nil. tauto.
  - destruct (Z.to_nat limit) eqn:Hn; [lia | ]. simpl. split; discriminate.
Qed.

(** X6: with the store enabled and answering every call, and a limit of at
    least one, the history fetch returns the empty list exactly when no
    stored turn carries the given user id. *)
Theorem history_empty_iff_user_unknown (e : env) (user_id : string) (limit : Z)
        (w : world) :
  cosmos_enabled e = true ->
  (forall n, store_fault e n = None) ->
  (1 <= limit)%Z ->
  fst (get_last_messages_from_cosmos e user_id limit w) = []
  <-> forall c, In c (docs w) -> it_user_id c <> user_id.
Proof. apply history_empty_iff. Qed.

Lemma history_empty_iff_user_unknown_witness :
  fst (get_last_messages_from_cosmos quiet_env "nobody" 5 sample_world) = [].
Proof.
  apply (history_empty_iff_user_unknown quiet_env "nobody" 5 sample_world);
    [reflexivity | reflexivity | lia | ].
  simpl. intros c [<- | [<- | [<- | []]]]; discriminate.
Defined.

(** ** More on the generation call *)

Lemma retry_loop_budget_from (e : env) (max_retries delay : Z)
      (chat_prompt : list message) (hits : list chunk) (n : nat) :
  forall (a : nat) (last_error : option exn) (w : world),
    Z.of_nat (a + n) = max_retries ->
    1 <= n ->
    exists k,
      k < n
      /\ chrono (snd (retry_loop e max_retries delay chat_prompt hits last_error
                                 (seq a n) w))
         = chrono w ++ attempt_events delay chat_prompt a
                    ++ retries delay chat_prompt k.
Proof.
  induction n as [|n IH]; intros a last_error w Hlen Hn; [lia | ].
  simpl seq. rewrite retry_loop_step. cbv zeta.
  set (w1 := log (EvLLM chat_prompt)
                 (if (0 <? a)%nat then log (EvSleep delay) w else w)).
  assert (Hw1 : chrono w1 = chrono w ++ attempt_events delay chat_prompt a)
    by apply chrono_attempt.
  destruct (attempt_outcome e (calls is_llm_call w) chat_prompt) as [x | err].
  - exists 0. split; [lia | ]. cbn [snd retries]. now rewrite Hw1, app_nil_r.
  - destruct (Z.geb_spec (Z.of_nat a) (max_retries - 1)).
    + exists 0. split; [lia | ]. cbn [snd retries]. now rewrite Hw1, app_nil_r.
    + destruct (IH (S a) (Some err) w1) as [k [Hk Ht]]; [lia | lia | ].
      exists (S k). split; [lia | ].
      rewrite Ht, Hw1, <- !app_assoc. reflexivity.
Qed.

Lemma generation_events (e : env) (user_input session_id : string)
        (max_retries delay : Z) (w : world) :
  (1 <= max_retries)%Z ->
  let out := call_llm_async_with_retry e user_input session_id max_retries delay w in
  docs (snd out) = docs w
  /\ exists evs tail,
      chrono (snd out)
      = chrono w ++ evs ++ EvSearch (user_input ++ "?")%string 5 :: tail
      /\ forallb is_query evs = true
      /\ ((tail = [] /\ is_raise (fst out) = true)
          \/ exists results k,
              k < Z.to_nat max_retries
              /\ tail
                 = EvLLM [prompt_message e user_input
                            (slice_to 5 (sorted_by by_reranker_desc results))]
                   :: retries delay
                        [prompt_message e user_input
                           (slice_to 5 (sorted_by by_reranker_desc results))] k).
Proof.
  intros HN out. subst out.
  split; [apply reads_only_generation | ].
  rewrite generation_unfold.
  destruct (effects_history e session_id 5 w) as [_ [evs [Ht Hall]]].
  destruct (get_last_messages_from_cosmos e session_id 5 w) as [cosmos_messages w1].
  cbn [fst snd] in Ht. cbv zeta. exists evs.
  destruct (search_reply e (calls is_search_call w1) (user_input ++ "?")%string 5)
    as [results | x].
  - destruct cosmos_messages as [|msg rest].
    + destruct (retry_loop_budget_from e max_retries delay
                  [prompt_message e user_input
                     (slice_to 5 (sorted_by by_reranker_desc results))]
                  (slice_to 5 (sorted_by by_reranker_desc results))
                  (Z.to_nat max_retries) 0 None
                  (log (EvSearch (user_input ++ "?")%string 5) w1))
        as [k [Hk Hk']]; [lia | lia | ].
      eexists. split; [ | split; [exact Hall | right; exists results, k; eauto]].
      rewrite Hk', chrono_log, Ht, <- !app_assoc. reflexivity.
    + exists []. cbn [fst snd]. rewrite chrono_log, Ht, <- app_assoc. auto.
  - exists []. cbn [fst snd]. rewrite chrono_log, Ht, <- app_assoc. auto.
Qed.

(** X7: a generation call with [max_retries >= 1] changes no stored
    document and issues, in this order: the queries of the history fetch,
    one search for the input followed by ["?"] with [top = 5], and then
    either nothing more (the call raised before its loop) or between one
    and [max_retries] calls of the model, all with the same single prompt
    message, with one sleep of [delay] before every call but the first. *)
Theorem generation_call_shape (e : env) (user_input session_id : string)
        (max_retries delay : Z) (w : world) :
  (1 <= max_retries)%Z ->
  let out := call_llm_async_with_retry e user_input session_id max_retries delay w in
  docs (snd out) = docs w
  /\ exists evs tail,
      chrono (snd out)
      = chrono w ++ evs ++ EvSearch (user_input ++ "?")%string 5 :: tail
      /\ forallb is_query evs = true
      /\ ((tail = [] /\ is_raise (fst out) = true)
          \/ exists results k,
              k < Z.to_nat max_retries
              /\ tail
                 = EvLLM [prompt_message e user_input
                            (slice_to 5 (sorted_by by_reranker_desc results))]
                   :: retries delay
                        [prompt_message e user_input
                           (slice_to 5 (sorted_by by_reranker_desc results))] k).
Proof. apply generation_events. Qed.

Lemma generation_call_shape_witness :
  docs (snd (call_llm_async_with_retry flaky_env "q" "s9" 3 2 sample_world))
  = docs sample_world.
Proof.
  apply (generation_call_shape flaky_env "q" "s9" 3 2 sample_world). lia.
Defined.

(** X8: with [max_retries <= 0] the loop body never runs: for an empty
    history and an index that answers, the generation call returns [None]
    without calling the model. *)
Theorem generation_without_attempts_returns_none (e : env)
        (user_input session_id : string) (max_retries delay : Z) (w : world)
        (results : list chunk) :
  (max_retries <= 0)%Z ->
  fst (get_last_messages_from_cosmos e session_id 5 w) = [] ->
  search_reply e
    (calls is_search_call (snd (get_last_messages_from_cosmos e session_id 5 w)))
    (user_input ++ "?")%string 5 = Ok results ->
  call_llm_async_with_retry e user_input session_id max_retries delay w
  = (Ok None,
     log (EvSearch (user_input ++ "?")%string 5)
         (snd (get_last_messages_from_cosmos e session_id 5 w))).
Proof.
  intros HN Hh Hs.
  rewrite (generation_runs_retry_loop e user_input session_id max_retries delay w
             results Hh Hs).
  replace (Z.to_nat max_retries) with 0 by lia. reflexivity.
Qed.

Lemma generation_without_attempts_returns_none_witness :
  fst (call_llm_async_with_retry quiet_env "q" "s9" 0 2 sample_world) = Ok None
  /\ calls is_llm_call (snd (call_llm_async_with_retry quiet_env "q" "s9" 0 2
                                                       sample_world)) = 0.
Proof.
  rewrite (generation_without_attempts_returns_none quiet_env "q" "s9" 0 2
             sample_world []); [split; reflexivity | lia | reflexivity | reflexivity].
Defined.

Lemma search_failure_run (e : env) (user_input session_id : string)
        (max_retries delay : Z) (w : world) (x : exn) :
  search_reply e
    (calls is_search_call (snd (get_last_messages_from_cosmos e session_id 5 w)))
    (user_input ++ "?")%string 5 = Raise x ->
  let out := call_llm_async_with_retry e user_input session_id max_retries delay w in
  fst out = Raise x
  /\ exists evs,
      chrono (snd out) = chrono w ++ evs ++ [EvSearch (user_input ++ "?")%string 5]
      /\ forallb is_query evs = true.
Proof.
  intros Hs out. subst out. rewrite generation_unfold.
  destruct (effects_history e session_id 5 w) as [_ [evs [Ht Hall]]].
  destruct (get_last_messages_from_cosmos e session_id 5 w) as [cosmos_messages w1].
  cbn [fst snd] in *. cbv zeta. rewrite Hs. cbn [fst snd].
  split; [reflexivity | ]. exists evs. split; [ | exact Hall].
  now rewrite chrono_log, Ht, <- app_assoc.
Qed.

(** X9: when the index raises, the generation call raises that exception at
    once: after the queries of the history fetch the single search request
    is the last call issued; the search is not repeated and the model is
    not called. *)
Theorem search_failure_aborts_generation (e : env) (user_input session_id : string)
        (max_retries delay : Z) (w : world) (x : exn) :
  search_reply e
    (calls is_search_call (snd (get_last_messages_from_cosmos e session_id 5 w)))
    (user_input ++ "?")%string 5 = Raise x ->
  let out := call_llm_async_with_retry e user_input session_id max_retries delay w in
  fst out = Raise x
  /\ exists evs,
      chrono (snd out) = chrono w ++ evs ++ [EvSearch (user_input ++ "?")%string 5]
      /\ forallb is_query evs = true.
Proof. apply search_failure_run. Qed.

Lemma search_failure_aborts_generation_witness :
  let e := {| cosmos_enabled := true;
              store_fault := store_fault quiet_env;
              search_reply := fun _ _ _ => Raise (ServiceError "503");
              llm_reply := llm_reply quiet_env;
              uuid4 := uuid4 quiet_env;
              utcnow := utcnow quiet_env;
              elapsed := elapsed quiet_env;
              str_float := str_float quiet_env;
              prompt_header := prompt_header quiet_env |} in
  fst (call_llm_async_with_retry e "q" "s9" 3 2 sample_world)
  = Raise (ServiceError "503").
Proof.
  intros e.
  apply (search_failure_aborts_generation e "q" "s9" 3 2 sample_world
           (ServiceError "503")).
  reflexivity.
Defined.

(** X10: warming up never writes to the store, never sleeps and calls the
    model at most once; it answers [true] exactly when its generation call
    returns. *)
Theorem warm_up_is_one_quiet_attempt (e : env) (w : world) :
  let out := warm_up_search_index e w in
  docs (snd out) = docs w
  /\ (fst out = true
      <-> is_raise (fst (call_llm_async_with_retry e "What is this document about?"
                                                   "warmup-session" 1 2 w)) = false)
  /\ exists evs,
      chrono (snd out) = chrono w ++ evs
      /\ filter is_sleep evs = []
      /\ filter is_write evs = []
      /\ length (filter is_llm_call evs) <= 1.
Proof.
  intros out. subst out. unfold warm_up_search_index.
  destruct (generation_events e "What is this document about?" "warmup-session"
              1 2 w ltac:(lia)) as [Hd [evs [tail [Ht [Hq Htail]]]]].
  destruct (call_llm_async_with_retry e "What is this document about?"
                                      "warmup-session" 1 2 w) as [[r | x] w'];
    cbn [fst snd is_raise] in *.
  all: split; [exact Hd | split; [split; congruence | ]].
  all: eexists; split; [exact Ht | ].
  all: assert (Hquiet : filter is_sleep evs = [] /\ filter is_write evs = []
                        /\ filter is_llm_call evs = []).
  all: try (clear - Hq; induction evs as [|ev evs IH]; [auto | ];
            simpl in Hq; apply andb_prop in Hq; destruct Hq as [Hev Hq];
            destruct (IH Hq) as [H1 [H2 H3]];
            destruct ev; try discriminate; simpl; auto).
  all: destruct Hquiet as [H1 [H2 H3]]; rewrite !filter_app, H1, H2, H3.
  all: destruct Htail as [[-> _] | [results [k [Hk ->]]]];
    [simpl; auto | assert (k = 0) by lia; subst k; simpl; auto].
Qed.

(** ** Writing turns *)

Lemma In_select_by_id (d : list item) (m : item) :
  In m d -> In m (select_by_id d (it_id m)).
Proof.
  intros H. unfold select_by_id. apply filter_In. split; [assumption | ].
  apply String.eqb_refl.
Qed.

(** X11: [save_message_to_cosmos] of [app.py].  When the store raises, the
    exception reaches the caller and no document is stored.  Otherwise one
    record is appended after the existing documents, which are kept as they
    are; it carries a fresh id, the given session id, user id, role,
    content and feedback, the given roles and attributions ([[]] when
    absent), and the given timestamp (the current time when absent or
    empty); looking its id up finds it. *)
Theorem save_message_appends_one_record (e : env)
        (session_id user_id role content : string) (user_roles : option (list string))
        (feedback timestamp : option string) (top_chunks : option (list attribution))
        (w : world) :
  let out := save_message_to_cosmos e session_id user_id role content user_roles
                                    feedback timestamp top_chunks w in
  match store_fault e (calls is_store_call w) with
  | Some x => fst out = Raise x /\ docs (snd out) = docs w
  | None =>
      fst out = Ok tt
      /\ exists m,
          docs (snd out) = docs w ++ [m]
          /\ In m (select_by_id (docs (snd out)) (uuid4 e (tick w)))
          /\ it_id m = uuid4 e (tick w)
          /\ it_session_id m = session_id
          /\ it_user_id m = user_id
          /\ it_role m = role
          /\ it_content m = content
          /\ it_feedback m = feedback
          /\ it_user_roles m = match user_roles with Some l => l | None => [] end
          /\ it_top_chunks m = match top_chunks with Some l => l | None => [] end
          /\ it_timestamp m = match timestamp with
                              | Some t => if is_empty t then utcnow e (tick w) else t
                              | None => utcnow e (tick w)
                              end
  end.
Proof.
  intros out. subst out.
  unfold save_message_to_cosmos, now, new_uuid, create_item, store_call, get_docs,
    put_docs, bind, ret.
  destruct (store_fault e (calls is_store_call w)); cbn [fst snd docs log].
  - split; reflexivity.
  - split; [reflexivity | ]. eexists. split; [reflexivity | ].
    split.
    + apply (In_select_by_id (docs w ++ [_])), in_or_app. right. now left.
    + cbn. repeat split.
      * destruct user_roles as [[|r l] | ]; reflexivity.
      * destruct top_chunks as [[|a l] | ]; reflexivity.
      * destruct timestamp as [[|c t] | ]; reflexivity.
Qed.

(** ** More on the chat route *)

(** X12: when the store accepts both writes and the generation call
    returns an answer, the caller gets that answer with the session id
    echoed and the scores of the first and second attribution (when there
    are such), and the store is the old store followed by the user turn and
    the assistant turn, the latter carrying the answer and its
    attributions. *)
Theorem chat_success_stores_both_turns (e : env) (request : ChatRequest) (w w2 : world)
        (r : llm_result) :
  store_fault e (calls is_store_call w) = None ->
  generation e request (after_user_turn e request w) = (Ok (Some r), w2) ->
  store_fault e (calls is_store_call w2) = None ->
  fst (chat e request w)
  = ChatOk {| cr_response := response r;
              cr_session_id := session_id_of request;
              cr_elapsed_time := elapsed e (tick w2);
              cr_first_chunk := option_map score_only (nth_error (top_chunks r) 0);
              cr_second_chunk := option_map score_only (nth_error (top_chunks r) 1) |}
  /\ docs (snd (chat e request w))
     = docs w ++ [user_turn e request w; assistant_turn e request r w2]
  /\ it_role (assistant_turn e request r w2) = "assistant"
  /\ it_top_chunks (assistant_turn e request r w2) = top_chunks r
  /\ it_session_id (assistant_turn e request r w2) = session_id_of request
  /\ it_user_id (assistant_turn e request r w2) = user_id_of request.
Proof.
  intros H1 Hg H2. rewrite chat_unfold, H1, Hg. cbv zeta. rewrite H2.
  cbn [fst snd docs].
  pose proof (reads_only_generation e (message_of request) (session_id_of request)
                3 2 (after_user_turn e request w)) as [Hd _].
  fold (generation e request) in Hd. rewrite Hg in Hd. cbn [snd] in Hd.
  rewrite Hd. unfold after_user_turn. cbn [docs]. rewrite <- app_assoc.
  repeat split.
Qed.

Lemma chat_success_stores_both_turns_witness :
  map it_role (docs (snd (chat search_env fresh_request sample_world)))
  = map it_role (docs sample_world) ++ ["user"; "assistant"].
Proof.
  destruct (chat_success_stores_both_turns search_env fresh_request sample_world
              (snd (generation search_env fresh_request
                               (after_user_turn search_env fresh_request sample_world)))
              {| response := "ok";
                 top_chunks := map to_attribution
                                   (slice_to 2 (slice_to 5 (sorted_by by_reranker_desc
                                                                      sample_hits))) |}
              eq_refl eq_refl eq_refl) as [_ [Hd _]].
  rewrite Hd, map_app. reflexivity.
Defined.

(** X13: when the model has answered but the store refuses the assistant
    turn, the caller gets the 500 answer with the store's message, and the
    store holds the user turn only: the answer is lost. *)
Theorem chat_assistant_write_failure (e : env) (request : ChatRequest) (w w2 : world)
        (r : llm_result) (x : exn) :
  store_fault e (calls is_store_call w) = None ->
  generation e request (after_user_turn e request w) = (Ok (Some r), w2) ->
  store_fault e (calls is_store_call w2) = Some x ->
  fst (chat e request w) = JSONResponse (str_exn x) 500
  /\ docs (snd (chat e request w)) = docs w ++ [user_turn e request w].
Proof.
  intros H1 Hg H2. rewrite chat_unfold, H1, Hg. cbv zeta. rewrite H2.
  cbn [fst snd]. rewrite docs_log.
  pose proof (reads_only_generation e (message_of request) (session_id_of request)
                3 2 (after_user_turn e request w)) as [Hd _].
  fold (generation e request) in Hd. rewrite Hg in Hd. cbn [snd] in Hd.
  now rewrite Hd.
Qed.

Lemma chat_assistant_write_failure_witness :
  let e := {| cosmos_enabled := true;
              store_fault := fun n => if (n =? 2)%nat
                                      then Some (ServiceError "write refused") else None;
              search_reply := search_reply quiet_env;
              llm_reply := llm_reply quiet_env;
              uuid4 := uuid4 quiet_env;
              utcnow := utcnow quiet_env;
              elapsed := elapsed quiet_env;
              str_float := str_float quiet_env;
              prompt_header := prompt_header quiet_env |} in
  fst (chat e fresh_request empty_world) = JSONResponse "write refused" 500
  /\ docs (snd (chat e fresh_request empty_world))
     = docs empty_world ++ [user_turn e fresh_request empty_world].
Proof.
  intros e.
  apply (chat_assistant_write_failure e fresh_request empty_world
           (snd (generation e fresh_request (after_user_turn e fresh_request empty_world)))
           {| response := "ok"; top_chunks := [] |} (ServiceError "write refused"));
    reflexivity.
Defined.

(** X14: a chat request only ever appends to the store: the documents
    found before are all kept, in place, and what is added is nothing, the
    user turn, or the user turn followed by one assistant turn. *)
Theorem chat_only_appends (e : env) (request : ChatRequest) (w : world) :
  exists added,
    docs (snd (chat e request w)) = docs w ++ added
    /\ (added = []
        \/ added = [user_turn e request w]
        \/ exists r w2, added = [user_turn e request w; assistant_turn e request r w2]).
Proof.
  rewrite chat_unfold.
  destruct (store_fault e (calls is_store_call w)).
  { exists []. cbn [snd]. rewrite docs_log, app_nil_r. auto. }
  pose proof (reads_only_generation e (message_of request) (session_id_of request)
                3 2 (after_user_turn e request w)) as [Hd _].
  fold (generation e request) in Hd.
  destruct (generation e request (after_user_turn e request w)) as [[[r | ] | x] w2];
    cbn [snd] in Hd; cbv zeta.
  - destruct (store_fault e (calls is_store_call w2)); cbn [snd docs].
    + exists [user_turn e request w]. rewrite docs_log, Hd. auto.
    + exists [user_turn e request w; assistant_turn e request r w2].
      rewrite Hd. unfold after_user_turn. cbn [docs]. rewrite <- app_assoc.
      split; [reflexivity | ]. right; right. eauto.
  - exists [user_turn e request w]. cbn [snd]. rewrite Hd. auto.
  - exists [user_turn e request w]. cbn [snd]. rewrite Hd. auto.
Qed.

Lemma calls_chrono (p : event -> bool) (w : world) :
  calls p w = length (filter p (chrono w)).
Proof. unfold calls, chrono. now rewrite filter_rev, length_rev. Qed.

Lemma queries_are_no_model_calls (evs : list event) :
  forallb is_query evs = true -> filter is_llm_call evs = [].
Proof.
  induction evs as [|ev evs IH]; simpl; [reflexivity | ].
  intros H. apply andb_prop in H. destruct H as [Hev H].
  destruct ev; try discriminate; simpl; auto.
Qed.

(** X15: a chat request whose session id equals its user id cannot be
    answered: with the store enabled and answering and the index answering,
    the user turn it has just stored makes its own history non-empty, the
    generation call raises [KeyError('role')], and the caller gets the 500
    answer; the user turn stays in the store. *)
Theorem chat_own_session_always_fails (e : env) (request : ChatRequest) (w : world) :
  session_id_of request = user_id_of request ->
  cosmos_enabled e = true ->
  (forall n, store_fault e n = None) ->
  (forall n q k, is_raise (search_reply e n q k) = false) ->
  fst (chat e request w) = JSONResponse "'role'" 500
  /\ docs (snd (chat e request w)) = docs w ++ [user_turn e request w].
Proof.
  intros Hsame Hen Hq Hs. rewrite chat_unfold, Hq.
  assert (Hne : fst (get_last_messages_from_cosmos e (session_id_of request) 5
                                                   (after_user_turn e request w))
                <> []).
  { intros Hempty.
    pose proof (proj1 (history_empty_iff e (session_id_of request) 5
                         (after_user_turn e request w) Hen Hq ltac:(lia)) Hempty)
      as Hnone.
    apply (Hnone (user_turn e request w)).
    - apply in_or_app. right. now left.
    - simpl. now symmetry. }
  pose proof (generation_with_history_raises e (message_of request)
                (session_id_of request) 3 2 (after_user_turn e request w) Hne (Hs _ _ _))
    as Hg.
  pose proof (reads_only_generation e (message_of request) (session_id_of request)
                3 2 (after_user_turn e request w)) as [Hd _].
  fold (generation e request) in Hg, Hd.
  destruct (generation e request (after_user_turn e request w)) as [r w2].
  cbn [fst snd] in Hg, Hd. subst r. cbn [fst snd]. split; [reflexivity | exact Hd].
Qed.

Lemma chat_own_session_always_fails_witness :
  fst (chat search_env own_session_request sample_world) = JSONResponse "'role'" 500
  /\ docs (snd (chat search_env own_session_request sample_world))
     = docs sample_world ++ [user_turn search_env own_session_request sample_world].
Proof.
  apply (chat_own_session_always_fails search_env own_session_request sample_world);
    reflexivity.
Defined.

(** X16: when the store accepts the user turn and the index is down, the
    caller gets the 500 answer with the index's message, the user turn
    stays in the store, and the model has not been called. *)
Theorem chat_search_failure (e : env) (request : ChatRequest) (w : world) (x : exn) :
  store_fault e (calls is_store_call w) = None ->
  (forall n q k, search_reply e n q k = Raise x) ->
  fst (chat e request w) = JSONResponse (str_exn x) 500
  /\ docs (snd (chat e request w)) = docs w ++ [user_turn e request w]
  /\ calls is_llm_call (snd (chat e request w)) = calls is_llm_call w.
Proof.
  intros Hup Hs. rewrite chat_unfold, Hup.
  destruct (search_failure_run e (message_of request) (session_id_of request) 3 2
              (after_user_turn e request w) x (Hs _ _ _)) as [Hr [evs [Ht Hall]]].
  pose proof (reads_only_generation e (message_of request) (session_id_of request)
                3 2 (after_user_turn e request w)) as [Hd _].
  fold (generation e request) in Hr, Ht, Hd.
  destruct (generation e request (after_user_turn e request w)) as [r w2].
  cbn [fst snd] in Hr, Ht, Hd. subst r. cbn [fst snd].
  split; [reflexivity | split; [exact Hd | ]].
  rewrite !calls_chrono, Ht, !filter_app, (queries_are_no_model_calls _ Hall).
  change (chrono (after_user_turn e request w))
    with (chrono w ++ [EvCreate (user_turn e request w)]).
  rewrite filter_app. simpl. now rewrite !app_nil_r.
Qed.

Lemma chat_search_failure_witness :
  let e := {| cosmos_enabled := true;
              store_fault := store_fault quiet_env;
              search_reply := fun _ _ _ => Raise (ServiceError "503");
              llm_reply := llm_reply quiet_env;
              uuid4 := uuid4 quiet_env;
              utcnow := utcnow quiet_env;
              elapsed := elapsed quiet_env;
              str_float := str_float quiet_env;
              prompt_header := prompt_header quiet_env |} in
  fst (chat e fresh_request sample_world) = JSONResponse "503" 500.
Proof.
  intros e.
  apply (chat_search_failure e fresh_request sample_world (ServiceError "503"));
    reflexivity.
Defined.

(** ** More on feedback updates *)

(** X17: a feedback request with an empty turn id or an empty session id
    is answered with the validation error, and nothing is asked of the
    store. *)
Theorem update_feedback_requires_ids (e : env) (fr : FeedbackRequest) (w : world) :
  fr_id fr = "" \/ fr_sessionId fr = "" ->
  update_feedback e fr w = (JSONResponse "Invalid input" 400, w).
Proof.
  intros H. unfold update_feedback, route.
  destruct H as [H | H]; rewrite H; cbn [is_empty orb].
  - reflexivity.
  - rewrite !orb_true_r. reflexivity.
Qed.

Lemma update_feedback_requires_ids_witness :
  update_feedback quiet_env
    {| fr_id := ""; fr_feedback := "positive"; fr_sessionId := "s1" |} sample_world
  = (JSONResponse "Invalid input" 400, sample_world)
  /\ update_feedback quiet_env
       {| fr_id := "m1"; fr_feedback := "positive"; fr_sessionId := "" |} sample_world
     = (JSONResponse "Invalid input" 400, sample_world).
Proof.
  split.
  - apply (update_feedback_requires_ids quiet_env
             {| fr_id := ""; fr_feedback := "positive"; fr_sessionId := "s1" |}
             sample_world). left; reflexivity.
  - apply (update_feedback_requires_ids quiet_env
             {| fr_id := "m1"; fr_feedback := "positive"; fr_sessionId := "" |}
             sample_world). right; reflexivity.
Defined.

Lemma replace_first_feedback (key feedback : string) (d : list item) :
  forall c rest,
    select_by_id d key = c :: rest ->
    exists d',
      replace_first key (with_feedback c feedback) d = Some d'
      /\ map without_feedback d' = map without_feedback d
      /\ forall id', id' <> key -> select_by_id d' id' = select_by_id d id'.
Proof.
  unfold select_by_id. induction d as [|a d IH]; intros c rest; simpl;
    [discriminate | ].
  destruct (String.eqb_spec (it_id a) key) as [Ha | Ha].
  - intros H. injection H as <- _. eexists. split; [reflexivity | ].
    split; [reflexivity | ].
    intros id' Hid'. simpl.
    destruct (String.eqb_spec (it_id a) id'); [congruence | reflexivity].
  - intros H. destruct (IH c rest H) as [d' [Hr [Hm Hs]]].
    rewrite Hr. eexists. split; [reflexivity | ].
    split; [simpl; now rewrite Hm | ].
    intros id' Hid'. simpl. now rewrite (Hs id' Hid').
Qed.

Lemma update_feedback_invalid (e : env) (fr : FeedbackRequest) (w : world) :
  is_empty (fr_id fr) || negb (valid_feedback (fr_feedback fr))
  || is_empty (fr_sessionId fr) = true ->
  update_feedback e fr w = (JSONResponse "Invalid input" 400, w).
Proof. intros H. unfold update_feedback, route. now rewrite H. Qed.

Lemma update_feedback_cases (e : env) (fr : FeedbackRequest) (w : world) :
  (fst (update_feedback e fr w) <> FeedbackOk (fr_id fr) (fr_feedback fr)
   /\ docs (snd (update_feedback e fr w)) = docs w)
  \/ (exists c rest,
         select_by_id (docs w) (fr_id fr) = c :: rest
         /\ fst (update_feedback e fr w) = FeedbackOk (fr_id fr) (fr_feedback fr)
         /\ replace_first (fr_id fr) (with_feedback c (fr_feedback fr)) (docs w)
            = Some (docs (snd (update_feedback e fr w)))).
Proof.
  destruct (is_empty (fr_id fr) || negb (valid_feedback (fr_feedback fr))
            || is_empty (fr_sessionId fr)) eqn:Hv.
  { left. rewrite (update_feedback_invalid e fr w Hv). split; [discriminate | reflexivity]. }
  apply orb_false_elim in Hv. destruct Hv as [Hv Hs].
  apply orb_false_elim in Hv. destruct Hv as [Hi Hf].
  apply negb_false_iff in Hf. apply is_empty_false in Hi, Hs.
  rewrite (update_feedback_valid e fr w Hi Hf Hs). cbv zeta.
  destruct (store_fault e (calls is_store_call w));
    [left; split; [discriminate | reflexivity] | ].
  destruct (select_by_id (docs w) (fr_id fr)) as [|c rest] eqn:Hsel;
    [left; split; [discriminate | reflexivity] | ].
  destruct (store_fault e (S (calls is_store_call w)));
    [left; split; [discriminate | reflexivity] | ].
  destruct (replace_first (fr_id fr) (with_feedback c (fr_feedback fr)) (docs w))
    as [d' | ] eqn:Hr; [ | left; split; [discriminate | reflexivity]].
  right. exists c, rest. repeat split; first [reflexivity | exact Hr].
Qed.

(** X18: whenever a feedback update is not answered with success, be it a
    validation error, an unknown id or a failure of the store, the stored
    documents are exactly as before. *)
Theorem update_feedback_failure_keeps_store (e : env) (fr : FeedbackRequest)
        (w : world) :
  fst (update_feedback e fr w) = FeedbackOk (fr_id fr) (fr_feedback fr)
  \/ docs (snd (update_feedback e fr w)) = docs w.
Proof.
  destruct (update_feedback_cases e fr w) as [[_ H] | [c [rest [_ [H _]]]]]; auto.
Qed.

(** X19: a successful feedback update changes nothing but one feedback
    field: with every feedback blanked the documents are the same as
    before, in the same order; a lookup by any other id returns what it
    returned before; and a turn with the requested id now carries the
    requested feedback. *)
Theorem update_feedback_changes_only_feedback (e : env) (fr : FeedbackRequest)
        (w : world) :
  fst (update_feedback e fr w) = FeedbackOk (fr_id fr) (fr_feedback fr) ->
  map without_feedback (docs (snd (update_feedback e fr w)))
  = map without_feedback (docs w)
  /\ (forall id', id' <> fr_id fr ->
                  select_by_id (docs (snd (update_feedback e fr w))) id'
                  = select_by_id (docs w) id')
  /\ exists c rest,
      select_by_id (docs (snd (update_feedback e fr w))) (fr_id fr) = c :: rest
      /\ it_feedback c = Some (fr_feedback fr).
Proof.
  intros Hok.
  destruct (update_feedback_cases e fr w) as [[H _] | [c [rest [Hsel [_ Hr]]]]];
    [congruence | ].
  destruct (replace_first_feedback (fr_id fr) (fr_feedback fr) (docs w) c rest Hsel)
    as [d' [Hr' [Hm Hs]]].
  rewrite Hr in Hr'. injection Hr' as Hd'. rewrite Hd'.
  split; [exact Hm | split; [exact Hs | ]].
  pose proof (select_by_id_head _ _ _ _ Hsel) as Hc.
  rewrite Hd' in Hr.
  destruct (replace_first_fixpoint (fr_id fr) (with_feedback c (fr_feedback fr))
              (docs w) d' Hc Hr) as [[rest' Hsel'] _].
  exists (with_feedback c (fr_feedback fr)), rest'. split; [exact Hsel' | reflexivity].
Qed.

Lemma update_feedback_changes_only_feedback_witness :
  let fr := {| fr_id := "m2"; fr_feedback := "negative"; fr_sessionId := "s1" |} in
  map without_feedback (docs (snd (update_feedback quiet_env fr sample_world)))
  = map without_feedback (docs sample_world).
Proof.
  intros fr.
  apply (update_feedback_changes_only_feedback quiet_env fr sample_world).
  reflexivity.
Defined.

Lemma replace_first_again (key : string) (b1 b2 : item) (d : list item) :
  it_id b1 = key ->
  forall d1, replace_first key b1 d = Some d1 ->
             replace_first key b2 d1 = replace_first key b2 d.
Proof.
  intros Hb. induction d as [|a d IH]; intros d1; simpl; [discriminate | ].
  destruct (String.eqb (it_id a) key) eqn:Ha.
  - intros H. injection H as <-. simpl. now rewrite Hb, String.eqb_refl.
  - destruct (replace_first key b1 d) as [d1' | ]; simpl; [ | discriminate].
    intros H. injection H as <-. simpl. rewrite Ha. now rewrite (IH d1' eq_refl).
Qed.

(** X20: the last write wins.  For a stored turn and a store that answers,
    updating its feedback to one valid value and then to another leaves the
    store exactly as the second update alone would have left it; no trace
    of the first value remains. *)
Theorem update_feedback_last_write_wins (e : env) (id fb1 fb2 s1 s2 : string)
        (w : world) (c : item) :
  In c (docs w) -> it_id c = id -> id <> "" ->
  valid_feedback fb1 = true -> valid_feedback fb2 = true ->
  s1 <> "" -> s2 <> "" ->
  (forall n, n < 4 -> store_fault e (calls is_store_call w + n) = None) ->
  let first := {| fr_id := id; fr_feedback := fb1; fr_sessionId := s1 |} in
  let second := {| fr_id := id; fr_feedback := fb2; fr_sessionId := s2 |} in
  fst (update_feedback e second (snd (update_feedback e first w))) = FeedbackOk id fb2
  /\ docs (snd (update_feedback e second (snd (update_feedback e first w))))
     = docs (snd (update_feedback e second w)).
Proof.
  intros Hin Hc Hid Hv1 Hv2 Hs1 Hs2 Hq first second. subst first second.
  pose proof (Hq 0 ltac:(lia)) as H0. rewrite Nat.add_0_r in H0.
  pose proof (Hq 1 ltac:(lia)) as H1. rewrite Nat.add_1_r in H1.
  pose proof (Hq 2 ltac:(lia)) as H2.
  replace (calls is_store_call w + 2) with (S (S (calls is_store_call w))) in H2 by lia.
  pose proof (Hq 3 ltac:(lia)) as H3.
  replace (calls is_store_call w + 3) with (S (S (S (calls is_store_call w)))) in H3
    by lia.
  destruct (select_by_id_some _ _ _ Hin Hc) as [c0 [rest Hsel]].
  pose proof (select_by_id_head _ _ _ _ Hsel) as Hc0.
  destruct (replace_first_found id (with_feedback c0 fb1) _ _ _ Hsel) as [d1 Hd1].
  destruct (replace_first_found id (with_feedback c0 fb2) _ _ _ Hsel) as [d2 Hd2].
  destruct (replace_first_fixpoint id (with_feedback c0 fb1) _ _ Hc0 Hd1)
    as [[rest1 Hsel1] _].
  rewrite (update_feedback_valid e
             {| fr_id := id; fr_feedback := fb1; fr_sessionId := s1 |} w Hid Hv1 Hs1).
  cbn [fr_id fr_feedback]. cbv zeta. rewrite H0, Hsel, H1, Hd1. cbn [snd].
  rewrite (update_feedback_valid e
             {| fr_id := id; fr_feedback := fb2; fr_sessionId := s2 |} w Hid Hv2 Hs2).
  cbn [fr_id fr_feedback]. cbv zeta. rewrite H0, Hsel, H1, Hd2. cbn [snd docs].
  rewrite (update_feedback_valid e
             {| fr_id := id; fr_feedback := fb2; fr_sessionId := s2 |} _ Hid Hv2 Hs2).
  cbn [fr_id fr_feedback docs]. cbv zeta.
  change (calls is_store_call
            {| docs := d1;
               trace := trace (log (EvReplace id (with_feedback c0 fb1))
                                   (log (EvQueryById id) w)) |})
    with (S (S (calls is_store_call w))).
  rewrite H2, Hsel1, H3.
  change (with_feedback (with_feedback c0 fb1) fb2) with (with_feedback c0 fb2).
  rewrite (replace_first_again id (with_feedback c0 fb1) (with_feedback c0 fb2)
             (docs w) Hc0 d1 Hd1), Hd2.
  split; reflexivity.
Qed.

Lemma update_feedback_last_write_wins_witness :
  let first := {| fr_id := "m2"; fr_feedback := "positive"; fr_sessionId := "s1" |} in
  let second := {| fr_id := "m2"; fr_feedback := "negative"; fr_sessionId := "s1" |} in
  fst (update_feedback quiet_env second (snd (update_feedback quiet_env first
                                                              sample_world)))
  = FeedbackOk "m2" "negative"
  /\ docs (snd (update_feedback quiet_env second
                                (snd (update_feedback quiet_env first sample_world))))
     = docs (snd (update_feedback quiet_env second sample_world)).
Proof.
  apply (update_feedback_last_write_wins quiet_env "m2" "positive" "negative" "s1" "s1"
           sample_world (turn "m2" "s1" "u" "assistant" "hi" "2024-01-01T10:00:05")).
  - simpl. right; left; reflexivity.
  - reflexivity.
  - discriminate.
  - reflexivity.
  - reflexivity.
  - discriminate.
  - discriminate.
  - intros n _. reflexivity.
Defined.

(** ** Search results, prompt blocks and attributions *)

(** X21: hits with equal reranker scores keep the order in which the index
    returned them: when the index answers and no hit is cut off, the hits
    of any one score appear in the result as they appeared in the answer. *)
Theorem query_azure_search_keeps_ties_in_order (e : env) (query : string) (top_k : Z)
        (w : world) (results : list chunk) (q : Q) :
  search_reply e (calls is_search_call w) query top_k = Ok results ->
  (Z.of_nat (length results) <= top_k)%Z ->
  exists hits,
    fst (query_azure_search e query top_k w) = Ok hits
    /\ filter (fun x => Qeq_bool (reranker_of x) q) hits
       = filter (fun x => Qeq_bool (reranker_of x) q) results.
Proof.
  intros Hreply Hk. unfold query_azure_search, search_post, bind, ret. rewrite Hreply.
  eexists. split; [reflexivity | ].
  rewrite slice_to_nonneg by lia.
  rewrite firstn_all2 by (rewrite sorted_by_length; lia).
  apply sorted_by_stable. intros x y Hx Hy. unfold by_reranker_desc.
  apply Qeq_bool_iff in Hx, Hy. apply Qle_bool_iff. rewrite Hx, Hy. apply Qle_refl.
Qed.

Lemma query_azure_search_keeps_ties_in_order_witness :
  let tie := [hit "first" 1 (5 # 10); hit "top" 1 (9 # 10); hit "second" 1 (1 # 2)] in
  let e := {| cosmos_enabled := true;
              store_fault := store_fault quiet_env;
              search_reply := fun _ _ _ => Ok tie;
              llm_reply := llm_reply quiet_env;
              uuid4 := uuid4 quiet_env;
              utcnow := utcnow quiet_env;
              elapsed := elapsed quiet_env;
              str_float := str_float quiet_env;
              prompt_header := prompt_header quiet_env |} in
  exists hits,
    fst (query_azure_search e "q?" 5 empty_world) = Ok hits
    /\ filter (fun x => Qeq_bool (reranker_of x) (1 # 2)) hits
       = filter (fun x => Qeq_bool (reranker_of x) (1 # 2)) tie.
Proof.
  intros tie e.
  apply (query_azure_search_keeps_ties_in_order e "q?" 5 empty_world tie (1 # 2));
    [reflexivity | simpl; lia].
Defined.


Lemma lower_app (a b : string) : lower (a ++ b) = (lower a ++ lower b)%string.
Proof. induction a as [|c a IH]; simpl; [reflexivity | now rewrite IH]. Qed.

Lemma string_length_app (a b : string) :
  String.length (a ++ b) = String.length a + String.length b.
Proof. induction a as [|c a IH]; simpl; [reflexivity | now rewrite IH]. Qed.

Lemma substring_all (b : string) : substring 0 (String.length b) b = b.
Proof. induction b as [|c b IH]; simpl; [reflexivity | now rewrite IH]. Qed.

Lemma substring_suffix (a b : string) :
  substring (String.length a) (String.length b) (a ++ b) = b.
Proof. induction a as [|c a IH]; simpl; [apply substring_all | exact IH]. Qed.

Lemma endswith_app (a b : string) : endswith (a ++ b) b = true.
Proof.
  unfold endswith. rewrite string_length_app.
  replace (String.length a + String.length b - String.length b)
    with (String.length a) by lia.
  rewrite substring_suffix, String.eqb_refl, andb_true_r.
  apply Nat.leb_le. lia.
Qed.

(** X23: a hit whose storage path ends in [.png], [.jpg], [.jpeg] or
    [.svg], in any mix of upper and lower case, gets a line
    ["[Image reference: <path>]"] with the path as stored, placed after its
    content in its block of the prompt. *)
Theorem image_paths_get_a_reference (i : nat) (x : chunk) (stem ext : string) :
  path_of x = (stem ++ ext)%string ->
  In (lower ext) [".png"; ".jpg"; ".jpeg"; ".svg"] ->
  format_chunk i x
  = ("Source " ++ digits (N.of_nat (i + 1)) ++ " (score=" ++ fmt4f (score_of x)
     ++ ", reranker=" ++ fmt4f (reranker_of x) ++ "):" ++ nl ++ content_of x ++ nl
     ++ "[Image reference: " ++ path_of x ++ "]")%string.
Proof.
  intros Hpath Hext. unfold format_chunk.
  assert (Himg : is_image_path (path_of x) = true).
  { unfold is_image_path. apply existsb_exists. exists (lower ext).
    split; [exact Hext | ]. rewrite Hpath, lower_app. apply endswith_app. }
  rewrite Himg. reflexivity.
Qed.

Lemma image_paths_get_a_reference_witness :
  let x := {| c_content := Some "see the figure"; c_text := None;
              c_search_score := Some (1 # 2)%Q; c_reranker_score := Some (3 # 2)%Q;
              c_storage_path := Some "https://blob/docs/Figure1.PNG" |} in
  format_chunk 0 x
  = ("Source 1 (score=0.5000, reranker=1.5000):" ++ nl ++ "see the figure" ++ nl
     ++ "[Image reference: https://blob/docs/Figure1.PNG]")%string.
Proof.
  intros x.
  apply (image_paths_get_a_reference 0 x "https://blob/docs/Figure1" ".PNG");
    [reflexivity | simpl; tauto].
Defined.

(** ** Cost of a request and the best hit *)

Lemma retries_counts (delay : Z) (chat_prompt : list message) (k : nat) :
  length (filter is_llm_call (retries delay chat_prompt k)) = k
  /\ length (filter is_sleep (retries delay chat_prompt k)) = k
  /\ filter is_search_call (retries delay chat_prompt k) = []
  /\ Forall (fun ev => is_sleep ev = true -> ev = EvSleep delay)
            (retries delay chat_prompt k).
Proof.
  induction k as [|k [H1 [H2 [H3 H4]]]]; simpl.
  - repeat split; constructor.
  - rewrite H1, H2, H3. repeat split.
    constructor; [reflexivity | constructor; [discriminate | exact H4]].
Qed.

Lemma queries_are_quiet (evs : list event) :
  forallb is_query evs = true ->
  filter is_llm_call evs = [] /\ filter is_sleep evs = []
  /\ filter is_search_call evs = []
  /\ Forall (fun ev => is_sleep ev = true -> ev = EvSleep 2) evs.
Proof.
  induction evs as [|ev evs IH]; simpl; [repeat split; constructor | ].
  intros H. apply andb_prop in H. destruct H as [Hev H].
  destruct (IH H) as [H1 [H2 [H3 H4]]].
  destruct ev; try discriminate; simpl; repeat split; auto;
    constructor; auto; discriminate.
Qed.

(** X24: whatever the collaborators do, one chat request sends at most one
    search to the index, calls the model at most three times and sleeps at
    most twice, two seconds each time. *)
Theorem chat_call_budget (e : env) (request : ChatRequest) (w : world) :
  exists evs,
    chrono (snd (chat e request w)) = chrono w ++ evs
    /\ length (filter is_search_call evs) <= 1
    /\ length (filter is_llm_call evs) <= 3
    /\ length (filter is_sleep evs) <= 2
    /\ Forall (fun ev => is_sleep ev = true -> ev = EvSleep 2) evs.
Proof.
  rewrite chat_unfold.
  destruct (store_fault e (calls is_store_call w)).
  { exists [EvCreate (user_turn e request w)]. cbn [snd]. rewrite chrono_log.
    simpl. repeat split; try lia. constructor; [discriminate | constructor]. }
  destruct (generation_events e (message_of request) (session_id_of request) 3 2
              (after_user_turn e request w) ltac:(lia))
    as [_ [evs [tail [Ht [Hq Htail]]]]].
  fold (generation e request) in Ht, Htail.
  destruct (queries_are_quiet evs Hq) as [Q1 [Q2 [Q3 Q4]]].
  assert (Hbudget :
            length (filter is_search_call
                           (evs ++ EvSearch (message_of request ++ "?")%string 5 :: tail))
            <= 1
            /\ length (filter is_llm_call
                              (evs ++ EvSearch (message_of request ++ "?")%string 5 :: tail))
               <= 3
            /\ length (filter is_sleep
                              (evs ++ EvSearch (message_of request ++ "?")%string 5 :: tail))
               <= 2
            /\ Forall (fun ev => is_sleep ev = true -> ev = EvSleep 2)
                      (evs ++ EvSearch (message_of request ++ "?")%string 5 :: tail)).
  { rewrite !filter_app, Q1, Q2, Q3. cbn [app filter is_search_call is_llm_call is_sleep].
    destruct Htail as [[-> _] | [results [k [Hk ->]]]].
    - simpl. repeat split; try lia.
      apply Forall_app. split; [exact Q4 | constructor; [discriminate | constructor]].
    - destruct (retries_counts 2 [prompt_message e (message_of request)
                                    (slice_to 5 (sorted_by by_reranker_desc results))] k)
        as [R1 [R2 [R3 R4]]].
      cbn [filter is_search_call is_llm_call is_sleep length]. rewrite R1, R2, R3.
      simpl. change (Z.to_nat 3) with 3 in Hk. repeat split; try lia.
      apply Forall_app. split; [exact Q4 | ].
      constructor; [discriminate | constructor; [discriminate | exact R4]]. }
  destruct Hbudget as [B1 [B2 [B3 B4]]].
  set (new := evs ++ EvSearch (message_of request ++ "?")%string 5 :: tail) in *.
  assert (Hw1 : chrono (after_user_turn e request w)
                = chrono w ++ [EvCreate (user_turn e request w)]) by reflexivity.
  rewrite Hw1, <- app_assoc in Ht.
  destruct (generation e request (after_user_turn e request w)) as [[[r | ] | x] w2];
    cbn [snd] in Ht; cbv zeta.
  - destruct (store_fault e (calls is_store_call w2)); cbn [snd].
    + exists ([EvCreate (user_turn e request w)] ++ new
              ++ [EvCreate (assistant_turn e request r w2)]).
      split; [now rewrite chrono_log, Ht, <- !app_assoc | ].
      rewrite !filter_app, !length_app. simpl. repeat split; try lia.
      constructor; [discriminate | ]. apply Forall_app. split; [exact B4 | ].
      constructor; [discriminate | constructor].
    + exists ([EvCreate (user_turn e request w)] ++ new
              ++ [EvCreate (assistant_turn e request r w2)]).
      split.
      { change (chrono {| docs := docs w2 ++ [assistant_turn e request r w2];
                          trace := EvCreate (assistant_turn e request r w2) :: trace w2 |})
          with (chrono w2 ++ [EvCreate (assistant_turn e request r w2)]).
        now rewrite Ht, <- !app_assoc. }
      rewrite !filter_app, !length_app. simpl. repeat split; try lia.
      constructor; [discriminate | ]. apply Forall_app. split; [exact B4 | ].
      constructor; [discriminate | constructor].
  - exists ([EvCreate (user_turn e request w)] ++ new). split; [exact Ht | ].
    simpl. repeat split; try lia. constructor; [discriminate | exact B4].
  - exists ([EvCreate (user_turn e request w)] ++ new). split; [exact Ht | ].
    simpl. repeat split; try lia. constructor; [discriminate | exact B4].
Qed.

Lemma generation_answer_hits (e : env) (user_input session_id : string)
      (max_retries delay : Z) (w : world) (r : llm_result) :
  fst (call_llm_async_with_retry e user_input session_id max_retries delay w)
  = Ok (Some r) ->
  exists results,
    search_reply e
      (calls is_search_call (snd (get_last_messages_from_cosmos e session_id 5 w)))
      (user_input ++ "?")%string 5 = Ok results
    /\ top_chunks r
       = map to_attribution
             (slice_to 2 (slice_to 5 (sorted_by by_reranker_desc results))).
Proof.
  rewrite generation_unfold.
  destruct (get_last_messages_from_cosmos e session_id 5 w) as [cosmos_messages w1].
  cbv zeta. cbn [snd].
  destruct (search_reply e (calls is_search_call w1) (user_input ++ "?")%string 5)
    as [results | x]; [ | discriminate].
  destruct cosmos_messages as [|msg rest]; [ | discriminate].
  intros H. destruct (retry_loop_answer _ _ _ _ _ _ _ _ _ H) as [Hr _].
  exists results. split; [reflexivity | exact Hr].
Qed.

(** X25: in a returned answer the first attribution is made from a hit of
    the highest reranker score the index returned: no returned hit has a
    rounded reranker score above that of the first attribution. *)
Theorem first_attribution_is_best_hit (e : env) (user_input session_id : string)
        (max_retries delay : Z) (w : world) (r : llm_result) (a : attribution)
        (others : list attribution) :
  fst (call_llm_async_with_retry e user_input session_id max_retries delay w)
  = Ok (Some r) ->
  top_chunks r = a :: others ->
  exists results,
    search_reply e
      (calls is_search_call (snd (get_last_messages_from_cosmos e session_id 5 w)))
      (user_input ++ "?")%string 5 = Ok results
    /\ forall x, In x results ->
                 (round4 (reranker_of x) <= a_reranker_score a)%Q.
Proof.
  intros Hok Htop.
  destruct (generation_answer_hits _ _ _ _ _ _ _ Hok) as [results [Hs Hr]].
  exists results. split; [exact Hs | ].
  rewrite Htop in Hr. rewrite !slice_to_nonneg in Hr by lia.
  pose proof (sorted_results_ordered results) as Hsorted.
  pose proof (sorted_by_perm by_reranker_desc results) as Hperm.
  destruct (sorted_by by_reranker_desc results) as [|h t]; [discriminate | ].
  simpl in Hr. injection Hr as Ha _. subst a. simpl.
  intros x Hx. apply round4_mono.
  apply (Permutation_in _ (Permutation_sym Hperm)) in Hx.
  inversion Hsorted as [|? ? _ Hall]; subst.
  destruct Hx as [<- | Hx]; [apply Qle_refl | ].
  rewrite Forall_forall in Hall. now apply Hall.
Qed.

Lemma first_attribution_is_best_hit_witness :
  exists results,
    search_reply search_env
      (calls is_search_call (snd (get_last_messages_from_cosmos search_env "s9" 5
                                                                empty_world)))
      "What is the refund policy?" 5 = Ok results
    /\ forall x, In x results -> (round4 (reranker_of x) <= 9000 # 10000)%Q.
Proof.
  apply (first_attribution_is_best_hit search_env "What is the refund policy" "s9" 3 2
           empty_world
           {| response := "ok";
              top_chunks := map to_attribution
                                (slice_to 2 (slice_to 5 (sorted_by by_reranker_desc
                                                                   sample_hits))) |}
           {| a_content := "b"; a_search_score := (300 # 10000)%Q;
              a_reranker_score := (9000 # 10000)%Q; a_source := "" |}
           [{| a_content := "a"; a_search_score := (123 # 10000)%Q;
               a_reranker_score := (5000 # 10000)%Q; a_source := "" |}]);
    reflexivity.
Defined.

(** ** The generation client and its retries *)

Lemma history_keeps_model_calls (e : env) (user_id : string) (limit : Z) (w : world) :
  calls is_llm_call (snd (get_last_messages_from_cosmos e user_id limit w))
  = calls is_llm_call w.
Proof.
  destruct (effects_history e user_id limit w) as [_ [evs [Ht Hall]]].
  rewrite !calls_chrono, Ht, filter_app, (queries_are_no_model_calls _ Hall).
  now rewrite app_nil_r.
Qed.

(** C1: a call of the generation client [call_llm_async_with_retry] with
    [max_retries = N >= 1], the model having been called [c] times before.

    Every such call: after the queries of the history fetch and the one
    search, the client either calls the model not at all (it raised before
    its loop) or calls it first without any sleep and then makes fewer than
    [N] retries, each one sleep of [delay] followed by one call.

    When attempts are made (the history is empty and the index answers):
    if the first [k < N] attempts raise and the next one answers, the
    client has made exactly [k] retries in that sleep-then-call pattern and
    returns the answer; if all [N] attempts raise, it has made exactly
    [N - 1] retries and raises the exception of the last attempt, returning
    no response. *)
Theorem generation_client_retries_with_fixed_delay (e : env)
        (user_input session_id : string) (N delay : Z) (w : world) :
  (1 <= N)%Z ->
  let fetch := get_last_messages_from_cosmos e session_id 5 w in
  let search := EvSearch (user_input ++ "?")%string 5 in
  let run := call_llm_async_with_retry e user_input session_id N delay w in
  let c := calls is_llm_call w in
  (exists evs tail,
      chrono (snd run) = chrono w ++ evs ++ search :: tail
      /\ forallb is_query evs = true
      /\ (tail = []
          \/ exists chat_prompt k,
              k < Z.to_nat N
              /\ tail = EvLLM chat_prompt :: retries delay chat_prompt k))
  /\ forall results,
      fst fetch = [] ->
      search_reply e (calls is_search_call (snd fetch)) (user_input ++ "?")%string 5
      = Ok results ->
      let hits := slice_to 5 (sorted_by by_reranker_desc results) in
      let chat_prompt := [prompt_message e user_input hits] in
      (forall k x,
          (Z.of_nat k < N)%Z ->
          (forall j, j < k -> is_raise (attempt_outcome e (c + j) chat_prompt) = true) ->
          attempt_outcome e (c + k) chat_prompt = Ok x ->
          fst run = Ok (Some {| response := x;
                                top_chunks := map to_attribution (slice_to 2 hits) |})
          /\ chrono (snd run)
             = chrono (snd fetch)
                 ++ search :: EvLLM chat_prompt :: retries delay chat_prompt k)
      /\ (forall x,
             (forall j, (Z.of_nat j < N)%Z ->
                        is_raise (attempt_outcome e (c + j) chat_prompt) = true) ->
             attempt_outcome e (c + (Z.to_nat N - 1)) chat_prompt = Raise x ->
             fst run = Raise x
             /\ chrono (snd run)
                = chrono (snd fetch)
                    ++ search :: EvLLM chat_prompt
                    :: retries delay chat_prompt (Z.to_nat N - 1)).
Proof.
  intros HN fetch search run c. split.
  - destruct (generation_events e user_input session_id N delay w HN)
      as [_ [evs [tail [Ht [Hq Htail]]]]].
    exists evs, tail. split; [exact Ht | split; [exact Hq | ]].
    destruct Htail as [[-> _] | [results [k [Hk ->]]]]; [now left | right; eauto].
  - intros results Hh Hs hits chat_prompt. subst run.
    rewrite (generation_runs_retry_loop e user_input session_id N delay w results Hh Hs).
    fold fetch. fold hits. fold chat_prompt. fold search.
    destruct (retry_loop_trace e N delay chat_prompt hits (log search (snd fetch)) HN)
      as [Ha Hb].
    assert (Hc : calls is_llm_call (log search (snd fetch)) = c)
      by (subst c fetch; rewrite calls_log; apply history_keeps_model_calls).
    rewrite Hc in Ha, Hb.
    assert (Hw : forall l, chrono (log search (snd fetch)) ++ l
                           = chrono (snd fetch) ++ search :: l)
      by (intros l; rewrite chrono_log, <- app_assoc; reflexivity).
    split.
    + intros k x Hk Hfail Hok. destruct (Ha k x Hk Hfail Hok) as [Hr Ht].
      split; [exact Hr | ]. rewrite Ht. apply Hw.
    + intros x Hfail Hlast. destruct (Hb x Hfail Hlast) as [Hr Ht].
      split; [exact Hr | ]. rewrite Ht. apply Hw.
Qed.

Lemma generation_client_retries_with_fixed_delay_witness :
  let prompt := [prompt_message failing_llm_env "q" []] in
  let answered :=
    [prompt_message flaky_env "q" (slice_to 5 (sorted_by by_reranker_desc sample_hits))] in
  (fst (call_llm_async_with_retry failing_llm_env "q" "s9" 3 2 sample_world)
   = Raise (ServiceError "rate limit 2")
   /\ chrono (snd (call_llm_async_with_retry failing_llm_env "q" "s9" 3 2 sample_world))
      = [EvQuerySessions "s9"; EvSearch "q?" 5; EvLLM prompt;
         EvSleep 2; EvLLM prompt; EvSleep 2; EvLLM prompt])
  /\ (fst (call_llm_async_with_retry flaky_env "q" "s9" 3 2 sample_world)
      = Ok (Some {| response := "answer";
                    top_chunks :=
                      map to_attribution
                          (slice_to 2 (slice_to 5 (sorted_by by_reranker_desc
                                                             sample_hits))) |})
      /\ chrono (snd (call_llm_async_with_retry flaky_env "q" "s9" 3 2 sample_world))
         = [EvQuerySessions "s9"; EvSearch "q?" 5; EvLLM answered;
            EvSleep 2; EvLLM answered; EvSleep 2; EvLLM answered]).
Proof.
  intros prompt answered. split.
  - destruct (generation_client_retries_with_fixed_delay failing_llm_env "q" "s9" 3 2
                sample_world ltac:(lia)) as [_ H].
    destruct (H [] eq_refl eq_refl) as [_ Hfail].
    apply (Hfail (ServiceError "rate limit 2")); [intros j _; reflexivity | reflexivity].
  - destruct (generation_client_retries_with_fixed_delay flaky_env "q" "s9" 3 2
                sample_world ltac:(lia)) as [_ H].
    destruct (H sample_hits eq_refl eq_refl) as [Hok _].
    apply (Hok 2 "answer"); [lia | | reflexivity].
    intros [|[|j]] Hj; [reflexivity | reflexivity | lia].
Defined.
